(** * Real-time session coordination of the co-design backend

    A shallow embedding of
      - app/api/v1/sessions.py       (start_session, advance_phase, ...)
      - app/core/redis_client.py     (presence, participants, typing)
      - app/api/websocket/handler.py (ConnectionManager, SessionWebSocketHandler,
                                      websocket_endpoint)
      - app/services/ai_agent/agent.py (_detect_emotion) and
        app/services/voice/tts.py    (EMOTIONS_SSML)
    and the properties of the coordination layer proved over it.

    Conventions of the embedding.
      - A Python exception is a value of [exn]; a computation that may raise
        returns [Ok a] or [Raise e] next to the state it leaves behind
        (mutations made before a raise persist, as in Python).
      - A coroutine runs from its start to its end without another coroutine
        interleaving at its [await]s.
      - JSON numbers are the integers; every outbound message is recorded as
        the JSON value handed to [json.dumps], not as its text. *)

From stdpp Require Import gmap strings list fin_maps pretty.

Open Scope string_scope.
#[local] Set Warnings "-register-all".

(** ** Python values *)

Module Py.

(** What [json.loads] builds and [json.dumps] accepts. A dict is the
    insertion-ordered list of its items (keys are unique). *)
Inductive json : Type :=
| JNull
| JBool (b : bool)
| JNum (n : Z)
| JStr (s : string)
| JArr (l : list json)
| JObj (d : list (string * json)).

Inductive exn : Type :=
| HTTPException (status_code : nat) (detail : string)
| IntegrityError
| ValueError
| IndexError
| KeyError (key : string)
| TypeError (msg : string)
| AttributeError (msg : string)
| WebSocketDisconnect
| Exception (msg : string).

Inductive res (A : Type) : Type :=
| Ok (a : A)
| Raise (e : exn).
Arguments Ok {A} a.
Arguments Raise {A} e.

(** [bool(x)] *)
Definition truthy (x : json) : bool :=
  match x with
  | JNull => false
  | JBool b => b
  | JNum n => negb (n =? 0)%Z
  | JStr s => negb (String.eqb s "")
  | JArr l => match l with [] => false | _ => true end
  | JObj d => match d with [] => false | _ => true end
  end.

(** [type(x).__name__] *)
Definition type_name (x : json) : string :=
  match x with
  | JNull => "NoneType"
  | JBool _ => "bool"
  | JNum _ => "int"
  | JStr _ => "str"
  | JArr _ => "list"
  | JObj _ => "dict"
  end.

(** The values that can be looked up in a dict: lists and dicts have no
    hash, and looking one up raises [TypeError]. *)
Inductive key : Type :=
| KNone
| KBool (b : bool)
| KNum (n : Z)
| KStr (s : string).

Definition hash (x : json) : res key :=
  match x with
  | JNull => Ok KNone
  | JBool b => Ok (KBool b)
  | JNum n => Ok (KNum n)
  | JStr s => Ok (KStr s)
  | JArr _ | JObj _ => Raise (TypeError ("unhashable type: '" ++ type_name x ++ "'"))
  end.

(** [str(k)], as an f-string prints it. *)
Definition str (k : key) : string :=
  match k with
  | KNone => "None"
  | KBool true => "True"
  | KBool false => "False"
  | KNum n => pretty n
  | KStr s => s
  end.

End Py.

(** ** Insertion-ordered dicts with string keys *)

Module PyDict.

Section Dict.
Context {V : Type}.

Definition t := list (string * V).

(** [d.get(k)] *)
Fixpoint get (k : string) (d : list (string * V)) : option V :=
  match d with
  | [] => None
  | (k', v) :: d' => if String.eqb k k' then Some v else get k d'
  end.

(** [d[k] = v]: an existing key keeps its position. *)
Fixpoint set (k : string) (v : V) (d : list (string * V)) : list (string * V) :=
  match d with
  | [] => [(k, v)]
  | (k', v') :: d' =>
      if String.eqb k k' then (k', v) :: d' else (k', v') :: set k v d'
  end.

(** [d.pop(k, None)] *)
Fixpoint pop (k : string) (d : list (string * V)) : list (string * V) :=
  match d with
  | [] => []
  | (k', v') :: d' =>
      if String.eqb k k' then d' else (k', v') :: pop k d'
  end.

Definition keys (d : list (string * V)) : list string := d.*1.

(** [{**d, **e}] *)
Definition update (d e : list (string * V)) : list (string * V) :=
  foldl (fun acc kv => set kv.1 kv.2 acc) d e.

Definition wf (d : list (string * V)) : Prop := NoDup (keys d).

End Dict.

End PyDict.

(** ** app/models/session.py and app/api/v1/sessions.py *)

Module Sessions.
Import Py.

Inductive SessionPhase : Type :=
| SETUP
| SHARED_FRAMING
| PERSPECTIVE_EXCHANGE
| MEANING_NEGOTIATION
| REFLECTION_ITERATION
| COMPLETE.

#[global] Instance SessionPhase_eq_dec : EqDecision SessionPhase.
Proof. solve_decision. Defined.

Definition phase_value (p : SessionPhase) : string :=
  match p with
  | SETUP => "setup"
  | SHARED_FRAMING => "shared_framing"
  | PERSPECTIVE_EXCHANGE => "perspective_exchange"
  | MEANING_NEGOTIATION => "meaning_negotiation"
  | REFLECTION_ITERATION => "reflection_iteration"
  | COMPLETE => "complete"
  end.

Inductive ParticipantRole : Type :=
| DESIGNER
| VI_USER
| AI_AGENT
| OBSERVER.

Definition role_value (r : ParticipantRole) : string :=
  match r with
  | DESIGNER => "designer"
  | VI_USER => "vi_user"
  | AI_AGENT => "ai_agent"
  | OBSERVER => "observer"
  end.

(** UUIDs are numbers, instants are numbers. *)
Abbreviation UUID := N (only parsing).
Abbreviation datetime := nat (only parsing).

(** The columns of [codesign_sessions] the endpoints below read or write
    (the experiment and configuration columns are not touched by them). *)
Record CoDesignSession : Type := mkSession {
  session_name : string;
  current_phase : SessionPhase;
  created_by : UUID;
  started_at : option datetime;
  completed_at : option datetime
}.

Record SessionParticipant : Type := mkParticipant {
  sp_session_id : UUID;
  sp_user_id : UUID;
  role_in_session : ParticipantRole;
  left_at : option datetime
}.

Record PhaseTransition : Type := mkTransition {
  pt_session_id : UUID;
  from_phase : option SessionPhase;
  to_phase : SessionPhase;
  triggered_by : option UUID;
  transition_reason : option string
}.

(** The three tables. [codesign_sessions] is keyed by its primary key;
    the other two are in insertion order. *)
Record Database : Type := mkDb {
  codesign_sessions : gmap N CoDesignSession;
  session_participants : list SessionParticipant;
  phase_transitions : list PhaseTransition
}.

Definition empty_db : Database := mkDb ∅ [] [].

(** The authenticated caller, [current_user]. *)
Record User : Type := mkUser {
  user_id : UUID;
  user_role : string
}.

Definition set_phase (p : SessionPhase) (s : CoDesignSession) : CoDesignSession :=
  mkSession (session_name s) p (created_by s) (started_at s) (completed_at s).

Definition set_started_at (t : datetime) (s : CoDesignSession) : CoDesignSession :=
  mkSession (session_name s) (current_phase s) (created_by s) (Some t) (completed_at s).

Definition set_completed_at (t : datetime) (s : CoDesignSession) : CoDesignSession :=
  mkSession (session_name s) (current_phase s) (created_by s) (started_at s) (Some t).

Definition not_found : exn := HTTPException 404 "Session tidak ditemukan".

(** [create_session]; [new_id] is the value [uuid.uuid4] draws for the
    primary key, and a clash with an existing row is refused by the
    database. *)
Definition create_session (new_id : UUID) (name : string) (current_user : User)
    (db : Database) : res UUID * Database :=
  match codesign_sessions db !! new_id with
  | Some _ => (Raise IntegrityError, db)
  | None =>
      let new_session := mkSession name SETUP (user_id current_user) None None in
      let participant_role :=
        if String.eqb (user_role current_user) "vi_user" then VI_USER
        else if String.eqb (user_role current_user) "researcher" then OBSERVER
        else DESIGNER in
      let participant := mkParticipant new_id (user_id current_user) participant_role None in
      (Ok new_id,
       mkDb (<[new_id := new_session]> (codesign_sessions db))
            (session_participants db ++ [participant])
            (phase_transitions db))
  end.

(** [start_session] *)
Definition start_session (session_id : UUID) (current_user : User) (now : datetime)
    (db : Database) : res (list (string * string)) * Database :=
  match codesign_sessions db !! session_id with
  | None => (Raise not_found, db)
  | Some session =>
      if decide (current_phase session ≠ SETUP) then
        (Raise (HTTPException 400 "Session sudah dimulai"), db)
      else
        let session := set_started_at now (set_phase SHARED_FRAMING session) in
        let transition :=
          mkTransition session_id (Some SETUP) SHARED_FRAMING
                       (Some (user_id current_user)) (Some "Session started") in
        (Ok [("message", "Session dimulai"); ("current_phase", "shared_framing")],
         mkDb (<[session_id := session]> (codesign_sessions db))
              (session_participants db)
              (phase_transitions db ++ [transition]))
  end.

Definition phase_order : list SessionPhase :=
  [SETUP; SHARED_FRAMING; PERSPECTIVE_EXCHANGE; MEANING_NEGOTIATION;
   REFLECTION_ITERATION; COMPLETE].

(** [l.index(x)] *)
Fixpoint index (x : SessionPhase) (l : list SessionPhase) : option nat :=
  match l with
  | [] => None
  | y :: l' => if decide (x = y) then Some 0 else S <$> index x l'
  end.

(** [advance_phase] *)
Definition advance_phase (session_id : UUID) (current_user : User) (now : datetime)
    (db : Database) : res (list (string * string)) * Database :=
  match codesign_sessions db !! session_id with
  | None => (Raise not_found, db)
  | Some session =>
      match index (current_phase session) phase_order with
      | None => (Raise ValueError, db)
      | Some current_index =>
          if decide (length phase_order - 1 ≤ current_index)%nat then
            (Raise (HTTPException 400 "Session sudah selesai"), db)
          else
            let from := current_phase session in
            match phase_order !! (current_index + 1) with
            | None => (Raise IndexError, db)
            | Some to =>
                let session := set_phase to session in
                let session :=
                  if decide (to = COMPLETE) then set_completed_at now session
                  else session in
                let transition :=
                  mkTransition session_id (Some from) to
                               (Some (user_id current_user)) (Some "Manual advance") in
                (Ok [("message", "Fase berubah ke " ++ phase_value to);
                     ("from_phase", phase_value from);
                     ("current_phase", phase_value to)],
                 mkDb (<[session_id := session]> (codesign_sessions db))
                      (session_participants db)
                      (phase_transitions db ++ [transition]))
            end
      end
  end.

(** [join_session] *)
Definition join_session (session_id : UUID) (role : ParticipantRole) (current_user : User)
    (db : Database) : res string * Database :=
  match codesign_sessions db !! session_id with
  | None => (Raise not_found, db)
  | Some _ =>
      if existsb (fun p => (sp_session_id p =? session_id)%N &&
                           (sp_user_id p =? user_id current_user)%N)
                 (session_participants db)
      then (Raise (HTTPException 400 "Anda sudah bergabung dalam session ini"), db)
      else
        (Ok ("Berhasil bergabung sebagai " ++ role_value role),
         mkDb (codesign_sessions db)
              (session_participants db ++ [mkParticipant session_id (user_id current_user) role None])
              (phase_transitions db))
  end.

(** The requests that write [codesign_sessions] or [phase_transitions]. *)
Inductive Request : Type :=
| ReqCreate (new_id : UUID) (name : string)
| ReqStart (session_id : UUID)
| ReqAdvance (session_id : UUID)
| ReqJoin (session_id : UUID) (role : ParticipantRole).

Definition serve (r : Request) (current_user : User) (now : datetime)
    (db : Database) : Database :=
  match r with
  | ReqCreate new_id name => (create_session new_id name current_user db).2
  | ReqStart session_id => (start_session session_id current_user now db).2
  | ReqAdvance session_id => (advance_phase session_id current_user now db).2
  | ReqJoin session_id role => (join_session session_id role current_user db).2
  end.

(** The databases the service can be in: the empty one, and whatever a
    request leaves behind. *)
Inductive reachable : Database → Prop :=
| reachable_empty : reachable empty_db
| reachable_serve r u now db :
    reachable db → reachable (serve r u now db).

(** The transitions recorded for a session that lead to a given phase. *)
Definition transitions_into (session_id : UUID) (p : SessionPhase)
    (db : Database) : list PhaseTransition :=
  filter (fun t => pt_session_id t = session_id ∧ to_phase t = p) (phase_transitions db).

Definition phase_of (session_id : UUID) (db : Database) : option SessionPhase :=
  current_phase <$> codesign_sessions db !! session_id.

(** [advance_phase] called once per element of [calls], in order. *)
Fixpoint advance_many (session_id : UUID) (calls : list (User * datetime))
    (db : Database) : list (res (list (string * string))) * Database :=
  match calls with
  | [] => ([], db)
  | (u, now) :: calls' =>
      let '(r, db') := advance_phase session_id u now db in
      let '(rs, db'') := advance_many session_id calls' db' in
      (r :: rs, db'')
  end.

(** The phase of the session after each of those calls. *)
Fixpoint phase_trace (session_id : UUID) (calls : list (User * datetime))
    (db : Database) : list (option SessionPhase) :=
  match calls with
  | [] => []
  | (u, now) :: calls' =>
      let db' := (advance_phase session_id u now db).2 in
      phase_of session_id db' :: phase_trace session_id calls' db'
  end.

(** The record [advance_phase] and [start_session] append. *)
Definition transition_by (session_id : UUID) (from to : SessionPhase) (u : User)
    (reason : string) : PhaseTransition :=
  mkTransition session_id (Some from) to (Some (user_id u)) (Some reason).

End Sessions.

(** ** app/api/v1/sessions.py, the remaining writers *)

Module SessionsLeave.
Import Py Sessions.

Definition set_left_at (t : nat) (p : SessionParticipant) : SessionParticipant :=
  mkParticipant (sp_session_id p) (sp_user_id p) (role_in_session p) (Some t).

(** The rows of [session_participants] of a user in a session. *)
Definition rows_of (session_id user : N) (db : Database) : list SessionParticipant :=
  filter (fun p => sp_session_id p = session_id ∧ sp_user_id p = user)
         (session_participants db).

(** [leave_session]; [scalar_one_or_none] raises when the query finds
    more than one row. *)
Definition leave_session (session_id : N) (current_user : User) (now : nat)
    (db : Database) : res string * Database :=
  match rows_of session_id (user_id current_user) db with
  | [] => (Raise (HTTPException 404 "Anda tidak terdaftar dalam session ini"), db)
  | [_] =>
      (Ok "Berhasil keluar dari session",
       mkDb (codesign_sessions db)
            ((fun p => if decide (sp_session_id p = session_id ∧
                                  sp_user_id p = user_id current_user)
                       then set_left_at now p else p) <$> session_participants db)
            (phase_transitions db))
  | _ => (Raise (Exception "Multiple rows were found when one or none was required"), db)
  end.

(** Every request that writes the database. *)
Inductive AnyRequest : Type :=
| Writes (r : Request)
| ReqLeave (session_id : N).

Definition serve_any (r : AnyRequest) (current_user : User) (now : nat)
    (db : Database) : Database :=
  match r with
  | Writes r => serve r current_user now db
  | ReqLeave session_id => (leave_session session_id current_user now db).2
  end.

Inductive reachable_any : Database → Prop :=
| reachable_any_empty : reachable_any empty_db
| reachable_any_serve r u now db :
    reachable_any db → reachable_any (serve_any r u now db).



End SessionsLeave.

(** ** app/core/redis_client.py *)

Module Redis.
Import Py.

(** The part of the Redis keyspace the client uses: hashes (presence),
    sets (participants, typing) and the time-to-live last set on a key.
    The two families of keys are kept in separate maps. The passing of
    time, and with it the expiry of a key, is not modelled. *)
Record RedisClient : Type := mkRedis {
  hashes : gmap string (gmap string string);
  sets : gmap string (gset string);
  ttl : gmap string nat
}.

Definition empty_redis : RedisClient := mkRedis ∅ ∅ ∅.

(** The client library sends a [str] as it is and an [int] as its
    decimal text; it refuses every other value before anything is sent. *)
Definition encode (v : json) : option string :=
  match v with
  | JStr s => Some s
  | JNum n => Some (pretty n)
  | _ => None
  end.

Definition DataError (v : json) : exn :=
  Exception ("Invalid input of type: '" ++ type_name v ++
             "'. Convert to a bytes, string, int or float first.").

(** The first value of a mapping the client refuses, if any. *)
Fixpoint first_refused (mapping : list (string * json)) : option json :=
  match mapping with
  | [] => None
  | (_, v) :: mapping' =>
      match encode v with
      | Some _ => first_refused mapping'
      | None => Some v
      end
  end.

(** HSET of a whole mapping: the fields given are written, the fields
    already in the hash and not given stay as they are. *)
Definition hset_fields (mapping : list (string * json)) (h : gmap string string)
    : gmap string string :=
  foldl (fun h kv => match encode kv.2 with
                     | Some s => <[kv.1 := s]> h
                     | None => h
                     end) h mapping.

Definition hset (name : string) (mapping : list (string * json)) (r : RedisClient)
    : res unit * RedisClient :=
  match mapping with
  | [] => (Raise (Exception "'hset' with no key value pairs"), r)
  | _ =>
      match first_refused mapping with
      | Some v => (Raise (DataError v), r)
      | None =>
          (Ok (),
           mkRedis (<[name := hset_fields mapping (default ∅ (hashes r !! name))]> (hashes r))
                   (sets r) (ttl r))
      end
  end.

Definition key_exists (name : string) (r : RedisClient) : bool :=
  bool_decide (is_Some (hashes r !! name)) || bool_decide (is_Some (sets r !! name)).

Definition expire (name : string) (seconds : nat) (r : RedisClient) : RedisClient :=
  if key_exists name r
  then mkRedis (hashes r) (sets r) (<[name := seconds]> (ttl r))
  else r.

Definition hgetall (name : string) (r : RedisClient) : gmap string string :=
  default ∅ (hashes r !! name).

Definition smembers (name : string) (r : RedisClient) : gset string :=
  default ∅ (sets r !! name).

Definition sadd (name member : string) (r : RedisClient) : RedisClient :=
  mkRedis (hashes r) (<[name := {[member]} ∪ smembers name r]> (sets r)) (ttl r).

(** SREM; a set that becomes empty is deleted, and its time-to-live
    with it. *)
Definition srem (name member : string) (r : RedisClient) : RedisClient :=
  match sets r !! name with
  | None => r
  | Some s =>
      let s' := s ∖ {[member]} in
      if decide (s' = ∅)
      then mkRedis (hashes r) (delete name (sets r)) (delete name (ttl r))
      else mkRedis (hashes r) (<[name := s']> (sets r)) (ttl r)
  end.

Definition participants_key (session_id : string) : string :=
  "session:" ++ session_id ++ ":participants".

Definition presence_key (session_id user_id : string) : string :=
  "session:" ++ session_id ++ ":presence:" ++ user_id.

Definition typing_key (session_id : string) : string :=
  "session:" ++ session_id ++ ":typing".

Definition add_participant (session_id user_id : string) (r : RedisClient) : RedisClient :=
  sadd (participants_key session_id) user_id r.

Definition remove_participant (session_id user_id : string) (r : RedisClient) : RedisClient :=
  srem (participants_key session_id) user_id r.

Definition get_participants (session_id : string) (r : RedisClient) : gset string :=
  smembers (participants_key session_id) r.

(** [set_presence]: HSET, then a time-to-live of five minutes. *)
Definition set_presence (session_id user_id : string) (data : list (string * json))
    (r : RedisClient) : res unit * RedisClient :=
  let key := presence_key session_id user_id in
  match hset key data r with
  | (Ok _, r') => (Ok (), expire key 300 r')
  | (Raise e, r') => (Raise e, r')
  end.

Definition get_presence (session_id user_id : string) (r : RedisClient)
    : gmap string string :=
  hgetall (presence_key session_id user_id) r.

Definition set_typing (session_id user_id : string) (r : RedisClient) : RedisClient :=
  expire (typing_key session_id) 5 (sadd (typing_key session_id) user_id r).

Definition clear_typing (session_id user_id : string) (r : RedisClient) : RedisClient :=
  srem (typing_key session_id) user_id r.

Definition get_typing_users (session_id : string) (r : RedisClient) : gset string :=
  smembers (typing_key session_id) r.

End Redis.

(** ** app/api/websocket/handler.py *)

Module Handler.
Import Py.

(** A [WebSocket] object is known by its identity. *)
Abbreviation WebSocket := nat (only parsing).

(** What has been done on the websockets. [Sent ws m err] is one call
    [ws.send_text(json.dumps(m))]; [err] is the exception it raised, if
    it raised one. *)
Inductive Event : Type :=
| Accepted (ws : WebSocket)
| Sent (ws : WebSocket) (message : json) (error : option string)
| Closed (ws : WebSocket) (code : nat) (reason : string).

Record AIMessageResponse : Type := mkAIMessageResponse {
  response : json;
  suggestions : json;
  tools_used : json;
  tts_audio_url : json;
  emotion_detected : json
}.

(** The claims of a verified token; [create_access_token] is always
    given a string subject. *)
Record TokenPayload : Type := mkTokenPayload {
  sub : string;
  claims : list (string * json)
}.

(** The collaborators of the handler, which are not part of it: the
    clock, the source of UUIDs, the peers behind the websockets, the
    base64 decoder, the speech-to-text service, the facilitation agent,
    the interaction log and the token verifier. *)
Record Env : Type := mkEnv {
  utcnow_isoformat : nat → string;
  uuid4 : nat → string;
  send_text_error : list Event → WebSocket → option string;
  b64decode : string → res string;
  transcribe_bytes : string → res (list (string * json));
  process_message : string → json → json → json → json → json → res AIMessageResponse;
  insert_one_error : list json → option string;
  verify_token : string → res TokenPayload
}.

Record World : Type := mkWorld {
  (* ConnectionManager *)
  active_connections : gmap string (list (string * WebSocket));
  session_participants : gmap string (gset string);
  (* redis_client *)
  redis : Redis.RedisClient;
  (* mongodb.interaction_logs, when a mongodb was given *)
  mongodb : option (list json);
  (* effects *)
  sockets : list Event;
  stdout : list string;
  clock_reads : nat;
  uuid_draws : nat;
  env : Env
}.

Definition M (A : Type) : Type := World → res A * World.

#[global] Instance M_ret : MRet M := fun A a w => (Ok a, w).

#[global] Instance M_bind : MBind M := fun A B f m w =>
  match m w with
  | (Ok a, w') => f a w'
  | (Raise e, w') => (Raise e, w')
  end.

Definition raise {A : Type} (e : exn) : M A := fun w => (Raise e, w).

(** [try: m  except Exception as e: h e] *)
Definition try_except {A : Type} (m : M A) (h : exn → M A) : M A := fun w =>
  match m w with
  | (Ok a, w') => (Ok a, w')
  | (Raise e, w') => h e w'
  end.

Definition gets {A : Type} (f : World → A) : M A := fun w => (Ok (f w), w).

Definition modify (f : World → World) : M unit := fun w => (Ok (), f w).

Fixpoint for_each {X : Type} (l : list X) (body : X → M unit) : M unit :=
  match l with
  | [] => mret ()
  | x :: l' => body x;; for_each l' body
  end.

Definition set_active_connections (c : gmap string (list (string * WebSocket)))
    (w : World) : World :=
  mkWorld c (session_participants w) (redis w) (mongodb w) (sockets w) (stdout w)
          (clock_reads w) (uuid_draws w) (env w).

Definition set_session_participants (p : gmap string (gset string)) (w : World) : World :=
  mkWorld (active_connections w) p (redis w) (mongodb w) (sockets w) (stdout w)
          (clock_reads w) (uuid_draws w) (env w).

Definition set_redis (r : Redis.RedisClient) (w : World) : World :=
  mkWorld (active_connections w) (session_participants w) r (mongodb w) (sockets w)
          (stdout w) (clock_reads w) (uuid_draws w) (env w).

Definition set_mongodb (m : option (list json)) (w : World) : World :=
  mkWorld (active_connections w) (session_participants w) (redis w) m (sockets w)
          (stdout w) (clock_reads w) (uuid_draws w) (env w).

Definition log_event (e : Event) (w : World) : World :=
  mkWorld (active_connections w) (session_participants w) (redis w) (mongodb w)
          (sockets w ++ [e]) (stdout w) (clock_reads w) (uuid_draws w) (env w).

Definition print (line : string) : M unit := modify (fun w =>
  mkWorld (active_connections w) (session_participants w) (redis w) (mongodb w)
          (sockets w) (stdout w ++ [line]) (clock_reads w) (uuid_draws w) (env w)).

(** [datetime.utcnow().isoformat()] *)
Definition utcnow : M string := fun w =>
  (Ok (utcnow_isoformat (env w) (clock_reads w)),
   mkWorld (active_connections w) (session_participants w) (redis w) (mongodb w)
           (sockets w) (stdout w) (S (clock_reads w)) (uuid_draws w) (env w)).

(** [str(uuid4())] *)
Definition new_uuid : M string := fun w =>
  (Ok (uuid4 (env w) (uuid_draws w)),
   mkWorld (active_connections w) (session_participants w) (redis w) (mongodb w)
           (sockets w) (stdout w) (clock_reads w) (S (uuid_draws w)) (env w)).

Definition accept (websocket : WebSocket) : M unit :=
  modify (log_event (Accepted websocket)).

Definition close (websocket : WebSocket) (code : nat) (reason : string) : M unit :=
  modify (log_event (Closed websocket code reason)).

(** [websocket.send_text(json.dumps(message))] *)
Definition send_text (websocket : WebSocket) (message : json) : M unit := fun w =>
  let error := send_text_error (env w) (sockets w) websocket in
  let w' := log_event (Sent websocket message error) w in
  match error with
  | None => (Ok (), w')
  | Some msg => (Raise (Exception msg), w')
  end.

Definition exn_str (e : exn) : string :=
  match e with
  | HTTPException c d => pretty c ++ ": " ++ d
  | IntegrityError => "IntegrityError"
  | ValueError => "ValueError"
  | IndexError => "list index out of range"
  | KeyError k => "'" ++ k ++ "'"
  | TypeError m | AttributeError m | Exception m => m
  | WebSocketDisconnect => ""
  end.

(** [o.get(k, default)] on a value that may not be a dict. *)
Definition py_get (o : json) (k : string) (default_ : json) : M json :=
  match o with
  | JObj d => mret (default default_ (PyDict.get k d))
  | _ => raise (AttributeError ("'" ++ type_name o ++ "' object has no attribute 'get'"))
  end.

(** [d.get(k, default)] on a dict. *)
Definition dict_get (d : list (string * json)) (k : string) (default_ : json) : json :=
  default default_ (PyDict.get k d).

(** *** ConnectionManager *)

Definition broadcast_to_session (session_id : string) (message : json)
    (exclude_user : option string) : M unit :=
  conns ← gets active_connections;
  match conns !! session_id with
  | None => mret ()
  | Some d =>
      for_each d (fun item =>
        let user_id := item.1 in
        let websocket := item.2 in
        if decide (Some user_id ≠ exclude_user) then
          try_except (send_text websocket message)
                     (fun e => print ("Error sending to " ++ user_id ++ ": " ++ exn_str e))
        else mret ())
  end.

Definition send_to_user (session_id user_id : string) (message : json) : M unit :=
  conns ← gets active_connections;
  match conns !! session_id with
  | None => mret ()
  | Some d =>
      match PyDict.get user_id d with
      | None => mret ()
      | Some websocket =>
          try_except (send_text websocket message)
                     (fun e => print ("Error sending to " ++ user_id ++ ": " ++ exn_str e))
      end
  end.

Definition get_session_users (session_id : string) (w : World) : gset string :=
  default ∅ (session_participants w !! session_id).

Definition redis_set_presence (session_id user_id : string)
    (data : list (string * json)) : M unit := fun w =>
  match Redis.set_presence session_id user_id data (redis w) with
  | (Ok _, r) => (Ok (), set_redis r w)
  | (Raise e, r) => (Raise e, set_redis r w)
  end.

Definition redis_do (f : Redis.RedisClient → Redis.RedisClient) : M unit :=
  modify (fun w => set_redis (f (redis w)) w).

(** [self.active_connections[session_id][user_id] = websocket] *)
Definition store_connection (session_id user_id : string) (websocket : WebSocket)
    : M unit := fun w =>
  match active_connections w !! session_id with
  | None => (Raise (KeyError session_id), w)
  | Some d =>
      (Ok (), set_active_connections
                (<[session_id := PyDict.set user_id websocket d]> (active_connections w)) w)
  end.

(** [self.session_participants[session_id].add(user_id)] *)
Definition add_session_participant (session_id user_id : string) : M unit := fun w =>
  match session_participants w !! session_id with
  | None => (Raise (KeyError session_id), w)
  | Some s =>
      (Ok (), set_session_participants
                (<[session_id := {[user_id]} ∪ s]> (session_participants w)) w)
  end.

(** The presence entries [connect] collects for the users of a set, in
    the order it is given them (Python leaves the iteration order of a set
    open; [connect] below takes the order of [elements]). A user without a
    presence record is left out. *)
Fixpoint collect_presence (session_id : string) (uids : list string)
    (r : Redis.RedisClient) : list json :=
  match uids with
  | [] => []
  | uid :: uids' =>
      let presence := map_to_list (Redis.get_presence session_id uid r) in
      match presence with
      | [] => collect_presence session_id uids' r
      | _ =>
          JObj (PyDict.update [("user_id", JStr uid)]
                              (prod_map id JStr <$> presence))
          :: collect_presence session_id uids' r
      end
  end.

Definition connect (websocket : WebSocket) (session_id user_id : string)
    (user_info : list (string * json)) : M unit :=
  accept websocket;;
  conns ← gets active_connections;
  match conns !! session_id with
  | None =>
      modify (fun w => set_active_connections (<[session_id := []]> (active_connections w)) w);;
      modify (fun w => set_session_participants (<[session_id := ∅]> (session_participants w)) w)
  | Some _ => mret ()
  end;;
  store_connection session_id user_id websocket;;
  add_session_participant session_id user_id;;
  redis_do (Redis.add_participant session_id user_id);;
  connected_at ← utcnow;
  redis_set_presence session_id user_id
    [("status", JStr "active");
     ("name", dict_get user_info "name" (JStr ""));
     ("role", dict_get user_info "role" (JStr ""));
     ("connected_at", JStr connected_at)];;
  timestamp ← utcnow;
  broadcast_to_session session_id
    (JObj [("type", JStr "user_joined");
           ("payload", JObj [("user_id", JStr user_id);
                             ("name", dict_get user_info "name" (JStr ""));
                             ("role", dict_get user_info "role" (JStr ""))]);
           ("timestamp", JStr timestamp)])
    (Some user_id);;
  parts ← gets session_participants;
  match parts !! session_id with
  | None => raise (KeyError session_id)
  | Some uids =>
      r ← gets redis;
      send_to_user session_id user_id
        (JObj [("type", JStr "session_state");
               ("payload", JObj [("participants",
                                  JArr (collect_presence session_id (elements uids) r));
                                 ("your_id", JStr user_id)])])
  end.

Definition forget_connection (session_id user_id : string) : M unit := fun w =>
  match active_connections w !! session_id with
  | None => (Ok (), w)
  | Some d =>
      let d' := PyDict.pop user_id d in
      let w1 := set_active_connections (<[session_id := d']> (active_connections w)) w in
      match session_participants w1 !! session_id with
      | None => (Raise (KeyError session_id), w1)
      | Some s =>
          let w2 := set_session_participants
                      (<[session_id := s ∖ {[user_id]}]> (session_participants w1)) w1 in
          match d' with
          | [] =>
              (Ok (),
               set_session_participants (delete session_id (session_participants w2))
                 (set_active_connections (delete session_id (active_connections w2)) w2))
          | _ => (Ok (), w2)
          end
      end
  end.

Definition disconnect (session_id user_id : string) : M unit :=
  forget_connection session_id user_id;;
  redis_do (Redis.remove_participant session_id user_id);;
  timestamp ← utcnow;
  broadcast_to_session session_id
    (JObj [("type", JStr "user_left");
           ("payload", JObj [("user_id", JStr user_id)]);
           ("timestamp", JStr timestamp)])
    None.

(** *** SessionWebSocketHandler *)

Definition _handle_ping (websocket : WebSocket) (session_id user_id : string)
    (user_info : list (string * json)) (payload : json) : M unit :=
  timestamp ← utcnow;
  send_to_user session_id user_id
    (JObj [("type", JStr "pong");
           ("payload", JObj [("timestamp", JStr timestamp)])]).

(** [{"user_id": user_id, **payload}]; unpacking a value that is not a
    dict raises. *)
Definition with_user_id (user_id : string) (payload : json) : M json :=
  match payload with
  | JObj d => mret (JObj (PyDict.update [("user_id", JStr user_id)] d))
  | _ => raise (TypeError ("'" ++ type_name payload ++ "' object is not a mapping"))
  end.

Definition _handle_presence_update (websocket : WebSocket) (session_id user_id : string)
    (user_info : list (string * json)) (payload : json) : M unit :=
  status ← py_get payload "status" (JStr "active");
  cursor ← py_get payload "cursor" JNull;
  active_element ← py_get payload "active_element" JNull;
  updated_at ← utcnow;
  redis_set_presence session_id user_id
    [("status", status);
     ("cursor", cursor);
     ("active_element", active_element);
     ("updated_at", JStr updated_at)];;
  body ← with_user_id user_id payload;
  broadcast_to_session session_id
    (JObj [("type", JStr "presence_update"); ("payload", body)])
    (Some user_id).

Definition _handle_typing_start (websocket : WebSocket) (session_id user_id : string)
    (user_info : list (string * json)) (payload : json) : M unit :=
  redis_do (Redis.set_typing session_id user_id);;
  broadcast_to_session session_id
    (JObj [("type", JStr "typing_start");
           ("payload", JObj [("user_id", JStr user_id);
                             ("name", dict_get user_info "name" JNull)])])
    (Some user_id).

Definition _handle_typing_stop (websocket : WebSocket) (session_id user_id : string)
    (user_info : list (string * json)) (payload : json) : M unit :=
  redis_do (Redis.clear_typing session_id user_id);;
  broadcast_to_session session_id
    (JObj [("type", JStr "typing_stop");
           ("payload", JObj [("user_id", JStr user_id)])])
    (Some user_id).

(** [await self.mongodb.interaction_logs.insert_one(doc)] *)
Definition insert_one (doc : json) : M unit := fun w =>
  match mongodb w with
  | None => (Ok (), w)
  | Some logs =>
      match insert_one_error (env w) logs with
      | Some msg => (Raise (Exception msg), w)
      | None => (Ok (), set_mongodb (Some (logs ++ [doc])%list) w)
      end
  end.

Definition _handle_chat_message (websocket : WebSocket) (session_id user_id : string)
    (user_info : list (string * json)) (payload : json) : M unit :=
  message_id ← new_uuid;
  content ← py_get payload "content" (JStr "");
  timestamp ← utcnow;
  broadcast_to_session session_id
    (JObj [("type", JStr "chat_message");
           ("payload", JObj [("message_id", JStr message_id);
                             ("user_id", JStr user_id);
                             ("name", dict_get user_info "name" JNull);
                             ("role", dict_get user_info "role" JNull);
                             ("content", content);
                             ("timestamp", JStr timestamp)])])
    None;;
  db ← gets mongodb;
  match db with
  | None => mret ()
  | Some _ =>
      logged ← py_get payload "content" JNull;
      logged_at ← utcnow;
      insert_one
        (JObj [("session_id", JStr session_id);
               ("interaction_type", JStr "chat_message");
               ("actor", JObj [("user_id", JStr user_id);
                               ("role", dict_get user_info "role" JNull)]);
               ("data", JObj [("content", logged)]);
               ("timestamp", JStr logged_at)])
  end.

Definition agent_process_message (session_id : string)
    (message sender_role current_phase context request_tts : json)
    : M AIMessageResponse := fun w =>
  match process_message (env w) session_id message sender_role current_phase
                        context request_tts with
  | Ok r => (Ok r, w)
  | Raise e => (Raise e, w)
  end.

Definition _handle_ai_message (websocket : WebSocket) (session_id user_id : string)
    (user_info : list (string * json)) (payload : json) : M unit :=
  message ← py_get payload "message" (JStr "");
  request_tts ← py_get payload "request_tts" (JBool true);
  current_phase ← py_get payload "current_phase" (JStr "shared_framing");
  if negb (truthy message) then mret ()
  else
    broadcast_to_session session_id
      (JObj [("type", JStr "ai_processing");
             ("payload", JObj [("status", JStr "thinking")])])
      None;;
    context ← py_get payload "context" JNull;
    r ← agent_process_message session_id message
          (dict_get user_info "role" (JStr "designer")) current_phase context request_tts;
    timestamp ← utcnow;
    broadcast_to_session session_id
      (JObj [("type", JStr "ai_response");
             ("payload", JObj [("response", response r);
                               ("suggestions", suggestions r);
                               ("tools_used", tools_used r);
                               ("tts_audio_url", tts_audio_url r);
                               ("emotion", emotion_detected r);
                               ("in_reply_to", JStr user_id);
                               ("timestamp", JStr timestamp)])])
      None.

(** [base64.b64decode(audio_data)] for a truthy [audio_data]. *)
Definition decode_audio (audio_data : json) : M string := fun w =>
  match audio_data with
  | JStr s =>
      match b64decode (env w) s with
      | Ok bytes => (Ok bytes, w)
      | Raise e => (Raise e, w)
      end
  | _ => (Raise (TypeError ("argument should be a bytes-like object or ASCII string, not '"
                            ++ type_name audio_data ++ "'")), w)
  end.

Definition stt_transcribe_bytes (audio_bytes : string) : M (list (string * json)) := fun w =>
  match transcribe_bytes (env w) audio_bytes with
  | Ok r => (Ok r, w)
  | Raise e => (Raise e, w)
  end.

Definition _handle_voice_input (websocket : WebSocket) (session_id user_id : string)
    (user_info : list (string * json)) (payload : json) : M unit :=
  audio_data ← py_get payload "audio" JNull;
  request_tts ← py_get payload "request_tts" (JBool true);
  if negb (truthy audio_data) then mret ()
  else
    audio_bytes ← decode_audio audio_data;
    result ← stt_transcribe_bytes audio_bytes;
    let transcript := dict_get result "transcript" (JStr "") in
    if truthy transcript then
      broadcast_to_session session_id
        (JObj [("type", JStr "voice_transcript");
               ("payload", JObj [("user_id", JStr user_id);
                                 ("name", dict_get user_info "name" JNull);
                                 ("transcript", transcript);
                                 ("confidence", dict_get result "confidence" (JNum 0))])])
        None;;
      forward ← py_get payload "forward_to_ai" (JBool true);
      if truthy forward then
        _handle_ai_message websocket session_id user_id user_info
          (JObj [("message", transcript); ("request_tts", request_tts)])
      else mret ()
    else mret ().

Definition _handle_crdt_update (websocket : WebSocket) (session_id user_id : string)
    (user_info : list (string * json)) (payload : json) : M unit :=
  artifact_id ← py_get payload "artifact_id" JNull;
  update ← py_get payload "update" JNull;
  broadcast_to_session session_id
    (JObj [("type", JStr "crdt_update");
           ("payload", JObj [("artifact_id", artifact_id);
                             ("update", update);
                             ("origin", JStr user_id)])])
    (Some user_id).

Definition _handle_phase_advance (websocket : WebSocket) (session_id user_id : string)
    (user_info : list (string * json)) (payload : json) : M unit :=
  new_phase ← py_get payload "new_phase" JNull;
  timestamp ← utcnow;
  broadcast_to_session session_id
    (JObj [("type", JStr "phase_changed");
           ("payload", JObj [("new_phase", new_phase);
                             ("triggered_by", JStr user_id);
                             ("timestamp", JStr timestamp)])])
    None.

Definition handler : Type :=
  WebSocket → string → string → list (string * json) → json → M unit.

Definition handlers : list (string * handler) :=
  [("ping", _handle_ping);
   ("presence_update", _handle_presence_update);
   ("typing_start", _handle_typing_start);
   ("typing_stop", _handle_typing_stop);
   ("chat_message", _handle_chat_message);
   ("voice_input", _handle_voice_input);
   ("ai_message", _handle_ai_message);
   ("crdt_update", _handle_crdt_update);
   ("phase_advance", _handle_phase_advance)].

(** [handlers.get(msg_type)]: the keys are strings, so only a string can
    be found; a value without a hash raises. The tag is returned with the
    handler, as the key it was looked up by, for the error message of
    [handle_message]. *)
Definition handlers_get (msg_type : json) : M (option handler * key) :=
  match hash msg_type with
  | Raise e => raise e
  | Ok (KStr s) => mret (PyDict.get s handlers, KStr s)
  | Ok k => mret (None, k)
  end.

Definition handle_message (websocket : WebSocket) (session_id user_id : string)
    (user_info : list (string * json)) (data : json) : M unit :=
  msg_type ← py_get data "type" (JStr "");
  payload ← py_get data "payload" (JObj []);
  found ← handlers_get msg_type;
  match found.1 with
  | Some h => h websocket session_id user_id user_info payload
  | None =>
      send_to_user session_id user_id
        (JObj [("type", JStr "error");
               ("payload", JObj [("message",
                                  JStr ("Unknown message type: " ++ str found.2))])])
  end.

(** *** websocket_endpoint *)

(** What one [await websocket.receive_json()] gives: a frame, or the
    exception it raises ([WebSocketDisconnect] when the peer is gone). *)
Inductive inbound : Type :=
| Frame (data : json)
| Receive_raises (e : exn).

(** How the endpoint stands once the frames at hand are consumed: still
    in its loop, waiting for the next frame, or returned (the connection
    is over). *)
Inductive status : Type :=
| Waiting
| Returned.

Fixpoint receive_loop (websocket : WebSocket) (session_id user_id : string)
    (user_info : list (string * json)) (frames : list inbound) : M status :=
  match frames with
  | [] => mret Waiting
  | f :: frames' =>
      fun w =>
        let step :=
          match f with
          | Frame data => handle_message websocket session_id user_id user_info data
          | Receive_raises e => raise e
          end in
        match step w with
        | (Ok _, w') => receive_loop websocket session_id user_id user_info frames' w'
        | (Raise WebSocketDisconnect, w') =>
            (disconnect session_id user_id;; mret Returned) w'
        | (Raise e, w') =>
            (print ("WebSocket error: " ++ exn_str e);;
             disconnect session_id user_id;;
             mret Returned) w'
        end
  end.

Definition websocket_endpoint (websocket : WebSocket) (session_id token : string)
    (frames : list inbound) : M status := fun w =>
  match verify_token (env w) token with
  | Raise _ => (close websocket 4001 "Invalid token";; mret Returned) w
  | Ok payload =>
      let user_id := sub payload in
      let user_info :=
        [("name", dict_get (claims payload) "name" JNull);
         ("role", dict_get (claims payload) "role" JNull);
         ("email", dict_get (claims payload) "email" JNull)] in
      (connect websocket session_id user_id user_info;;
       receive_loop websocket session_id user_id user_info frames) w
  end.

(** *** The service over time *)

(** What can happen to the world of the handler: a connection is
    attached, a connection is detached, a frame is handled. *)
Inductive manager_step : World → World → Prop :=
| step_connect ws s u info w : manager_step w (connect ws s u info w).2
| step_disconnect s u w : manager_step w (disconnect s u w).2
| step_frame ws s u info data w : manager_step w (handle_message ws s u info data w).2.

(** The worlds the service can be in, from a manager without sessions. *)
Inductive manager_reachable : World → Prop :=
| reachable_start w :
    active_connections w = ∅ → session_participants w = ∅ → manager_reachable w
| reachable_step w w' :
    manager_reachable w → manager_step w w' → manager_reachable w'.

End Handler.

(** ** app/services/ai_agent/agent.py and app/services/voice/tts.py: emotions *)

Module Agent.
Import Py.

(** [needle in text] *)
Fixpoint contains (needle text : string) : bool :=
  String.prefix needle text ||
  match text with
  | EmptyString => false
  | String _ text' => contains needle text'
  end.

(** [any(kw in text for kw in keywords)] *)
Definition any_in (keywords : list string) (text : string) : bool :=
  existsb (fun kw => contains kw text) keywords.

Definition empathy_keywords : list string :=
  ["memahami"; "terima kasih"; "penting"; "menghargai";
   "perasaan"; "pengalaman"; "kesulitan"; "tantangan"].

Definition encourage_keywords : list string :=
  ["bagus"; "hebat"; "baik sekali"; "tepat"; "benar";
   "setuju"; "ide bagus"; "saran yang bagus"].

Definition excited_keywords : list string :=
  ["menarik"; "insight baru"; "penemuan"; "aha"; "penting sekali"; "kunci"].

Definition phase_emotions : list (string * string) :=
  [("shared_framing", "empathy");
   ("perspective_exchange", "encouraging");
   ("meaning_negotiation", "neutral");
   ("reflection_iteration", "empathy");
   ("complete", "encouraging")].

Section DetectEmotion.

(** [str.lower] *)
Variable lower : string → string.

(** [CoDesignAgent._detect_emotion] *)
Definition _detect_emotion (text phase : string) : string :=
  let text_lower := lower text in
  if contains "?" text || contains "apakah" text_lower || contains "bagaimana" text_lower
  then "questioning"
  else if any_in empathy_keywords text_lower then "empathy"
  else if any_in encourage_keywords text_lower then "encouraging"
  else if any_in excited_keywords text_lower then "excited"
  else default "neutral" (PyDict.get phase phase_emotions).

End DetectEmotion.

(** The prosody of an emotion: rate, pitch, description. *)
Record Prosody : Type := mkProsody {
  rate : string;
  pitch : string;
  description : string
}.

(** [EmotionalTTSService.EMOTIONS_SSML] *)
Definition EMOTIONS_SSML : list (string * Prosody) :=
  [("neutral", mkProsody "medium" "medium" "Netral, informatif");
   ("empathy", mkProsody "slow" "-10%" "Empatik, pengertian, mendukung");
   ("encouraging", mkProsody "medium" "+5%" "Menyemangati, positif");
   ("questioning", mkProsody "medium" "+15%" "Bertanya, ingin tahu");
   ("excited", mkProsody "fast" "+10%" "Antusias, bersemangat");
   ("calm", mkProsody "slow" "-5%" "Tenang, menenangkan");
   ("serious", mkProsody "slow" "-15%" "Serius, penting")].

(** [d[k]] *)
Definition getitem {V} (k : string) (d : list (string * V)) : res V :=
  match PyDict.get k d with
  | Some v => Ok v
  | None => Raise (KeyError k)
  end.

(** The first statement of [_build_ssml]:
    [EMOTIONS_SSML.get(emotion, EMOTIONS_SSML["neutral"])]. *)
Definition emotion_params (emotion : string) : res Prosody :=
  match getitem "neutral" EMOTIONS_SSML with
  | Raise e => Raise e
  | Ok fallback => Ok (default fallback (PyDict.get emotion EMOTIONS_SSML))
  end.

(** [EmotionalTTSService.get_supported_emotions] *)
Definition get_supported_emotions : list (string * string) :=
  (fun item => (item.1, description item.2)) <$> EMOTIONS_SSML.

End Agent.

(** ** Sample worlds *)

Module Samples.
Import Py Handler.

(** Collaborators that behave: the peer behind websocket 2 is gone (every
    send to it fails), everything else works. *)
Definition sample_env : Env :=
  mkEnv (fun n => "t" ++ pretty n) (fun n => "id" ++ pretty n)
        (fun _ ws => if Nat.eqb ws 2 then Some "closed" else None)
        (fun s => Ok s)
        (fun s => Ok [("transcript", JStr s)])
        (fun _ m _ _ _ _ => Ok (mkAIMessageResponse m JNull JNull JNull JNull))
        (fun _ => None)
        (fun t => Ok (mkTokenPayload t [("name", JStr t); ("role", JStr "designer")])).

Definition empty_world : World :=
  mkWorld ∅ ∅ Redis.empty_redis (Some []) [] [] 0 0 sample_env.

Definition info_of (name : string) : list (string * json) :=
  [("name", JStr name); ("role", JStr "designer"); ("email", JNull)].

(** Users A, B and C attached to session "s" on websockets 1, 2 and 3. *)
Definition three_users : World :=
  (connect 3 "s" "C" (info_of "C")
     (connect 2 "s" "B" (info_of "B")
        (connect 1 "s" "A" (info_of "A") empty_world).2).2).2.

(** User A alone in session "s", on websocket 1. *)
Definition one_user : World :=
  (connect 1 "s" "A" (info_of "A") empty_world).2.

Definition hello : json := JObj [("type", JStr "hello")].

End Samples.

(** * Properties *)

(** ** The phase state machine *)

Module SessionsSpec.
Import Py Sessions.

(** The immediate successor in the order
    setup, shared_framing, perspective_exchange, meaning_negotiation,
    reflection_iteration, complete. *)
Definition next_in_order (p : SessionPhase) : option SessionPhase :=
  match p with
  | SETUP => Some SHARED_FRAMING
  | SHARED_FRAMING => Some PERSPECTIVE_EXCHANGE
  | PERSPECTIVE_EXCHANGE => Some MEANING_NEGOTIATION
  | MEANING_NEGOTIATION => Some REFLECTION_ITERATION
  | REFLECTION_ITERATION => Some COMPLETE
  | COMPLETE => None
  end.

Definition advanced (now : nat) (q : SessionPhase) (s : CoDesignSession) : CoDesignSession :=
  if decide (q = COMPLETE) then set_completed_at now (set_phase q s) else set_phase q s.

Lemma current_phase_advanced now q s : current_phase (advanced now q s) = q.
Proof. unfold advanced. by case_decide. Qed.

(** One successful call: the session moves to the successor of its phase
    and one record is appended. *)
Lemma advance_phase_ok sid u now db s q :
  codesign_sessions db !! sid = Some s →
  next_in_order (current_phase s) = Some q →
  advance_phase sid u now db =
    (Ok [("message", "Fase berubah ke " ++ phase_value q);
         ("from_phase", phase_value (current_phase s));
         ("current_phase", phase_value q)],
     mkDb (<[sid := advanced now q s]> (codesign_sessions db))
          (session_participants db)
          (phase_transitions db ++ [transition_by sid (current_phase s) q u "Manual advance"])).
Proof.
  intros Hs Hq. unfold advance_phase. rewrite Hs.
  destruct (current_phase s) eqn:Hp; simpl in Hq; simplify_eq; reflexivity.
Qed.

(** A call on a complete session is refused and changes nothing. *)
Lemma advance_phase_complete sid u now db s :
  codesign_sessions db !! sid = Some s →
  current_phase s = COMPLETE →
  advance_phase sid u now db = (Raise (HTTPException 400 "Session sudah selesai"), db).
Proof.
  intros Hs Hp. unfold advance_phase. rewrite Hs, Hp. reflexivity.
Qed.

Lemma start_session_ok sid u now db s :
  codesign_sessions db !! sid = Some s →
  current_phase s = SETUP →
  start_session sid u now db =
    (Ok [("message", "Session dimulai"); ("current_phase", "shared_framing")],
     mkDb (<[sid := set_started_at now (set_phase SHARED_FRAMING s)]> (codesign_sessions db))
          (session_participants db)
          (phase_transitions db ++ [transition_by sid SETUP SHARED_FRAMING u "Session started"])).
Proof.
  intros Hs Hp. unfold start_session. rewrite Hs.
  case_decide; [congruence | reflexivity].
Qed.

Lemma start_session_refused sid u now db s :
  codesign_sessions db !! sid = Some s →
  current_phase s ≠ SETUP →
  start_session sid u now db = (Raise (HTTPException 400 "Session sudah dimulai"), db).
Proof.
  intros Hs Hp. unfold start_session. rewrite Hs.
  case_decide; [reflexivity | contradiction].
Qed.

(** Every recorded transition belongs to a session that has left
    [setup]. *)
Definition left_setup (db : Database) : Prop :=
  ∀ t, t ∈ phase_transitions db →
    ∃ s, codesign_sessions db !! pt_session_id t = Some s ∧ current_phase s ≠ SETUP.

Lemma left_setup_insert db sid s' ts :
  left_setup db →
  current_phase s' ≠ SETUP →
  (∀ t, t ∈ ts → pt_session_id t = sid) →
  left_setup (mkDb (<[sid := s']> (codesign_sessions db)) (session_participants db)
                   (phase_transitions db ++ ts)).
Proof.
  intros Hinv Hs' Hts t Ht. simpl in *.
  destruct (decide (pt_session_id t = sid)) as [->|Hne].
  - exists s'. by rewrite lookup_insert_eq.
  - rewrite lookup_insert_ne by done.
    apply elem_of_app in Ht as [Ht|Ht]; [by apply Hinv | by apply Hts in Ht].
Qed.

Lemma left_setup_serve r u now db : left_setup db → left_setup (serve r u now db).
Proof.
  intros Hinv. destruct r as [new_id name|sid|sid|sid role]; simpl.
  - unfold create_session.
    destruct (codesign_sessions db !! new_id) eqn:Hnew; [done|]. simpl.
    intros t Ht. simpl in Ht. destruct (Hinv t Ht) as (s & Hs & Hp).
    exists s. split; [|done]. simpl.
    rewrite lookup_insert_ne; [done|]. intros ->. congruence.
  - destruct (codesign_sessions db !! sid) as [s|] eqn:Hs.
    + destruct (decide (current_phase s = SETUP)) as [Hp|Hp].
      * rewrite (start_session_ok _ _ _ _ _ Hs Hp). simpl.
        apply left_setup_insert; [done|done|].
        intros t Ht. apply list_elem_of_singleton in Ht. by subst.
      * by rewrite (start_session_refused _ _ _ _ _ Hs Hp).
    + unfold start_session. by rewrite Hs.
  - destruct (codesign_sessions db !! sid) as [s|] eqn:Hs.
    + destruct (next_in_order (current_phase s)) as [q|] eqn:Hq.
      * rewrite (advance_phase_ok _ _ _ _ _ _ Hs Hq). simpl.
        apply left_setup_insert; [done| |].
        -- rewrite current_phase_advanced.
           intros ->. by destruct (current_phase s).
        -- intros t Ht. apply list_elem_of_singleton in Ht. by subst.
      * rewrite (advance_phase_complete _ _ _ _ _ Hs); [done|].
        by destruct (current_phase s).
    + unfold advance_phase. by rewrite Hs.
  - unfold join_session.
    destruct (codesign_sessions db !! sid); [|done].
    by destruct (existsb _ _).
Qed.

Lemma reachable_left_setup db : reachable db → left_setup db.
Proof.
  induction 1 as [|r u now db _ IH].
  - intros t Ht. simpl in Ht. by apply elem_of_nil in Ht.
  - by apply left_setup_serve.
Qed.

(** A session still in [setup] has no recorded transition. *)
Lemma setup_no_transition db sid s p :
  reachable db →
  codesign_sessions db !! sid = Some s →
  current_phase s = SETUP →
  transitions_into sid p db = [].
Proof.
  intros Hr Hs Hp. unfold transitions_into.
  pose proof (reachable_left_setup db Hr) as Hinv.
  assert (Hall : ∀ t, t ∈ phase_transitions db → pt_session_id t ≠ sid).
  { intros t' Ht' Heq. destruct (Hinv t' Ht') as (s' & Hs' & Hp').
    rewrite Heq in Hs'. congruence. }
  clear Hinv. induction (phase_transitions db) as [|t' ts' IH]; [done|].
  rewrite filter_cons_False.
  - apply IH. intros t'' Ht''. apply Hall. by right.
  - intros [Heq _]. by apply (Hall t'); [left|].
Qed.

Ltac advance_once :=
  match goal with
  | |- context [advance_phase ?sid ?u ?now ?db] =>
      erewrite (advance_phase_ok sid u now db);
      [ | first [eassumption | simpl; apply lookup_insert_eq]
        | rewrite ?current_phase_advanced; first [eassumption | reflexivity] ]
  end.

(** C2. From a session in phase setup, five calls of [advance_phase] all
    succeed, take the session through shared_framing,
    perspective_exchange, meaning_negotiation and reflection_iteration
    to complete, one phase per call, and append one PhaseTransition
    record each (five in all, each from a phase to its immediate
    successor). A sixth call is refused with status 400 and the detail
    "Session sudah selesai" (session already complete) and leaves the
    database as it was: the phase stays complete and no record is
    appended. *)
Theorem advance_five_times_reaches_complete sid db s c1 c2 c3 c4 c5 c6 :
  codesign_sessions db !! sid = Some s →
  current_phase s = SETUP →
  let run := advance_many sid [c1; c2; c3; c4; c5] db in
  Forall (fun r => ∃ body, r = Ok body) run.1 ∧
  length run.1 = 5 ∧
  phase_trace sid [c1; c2; c3; c4; c5] db =
    [Some SHARED_FRAMING; Some PERSPECTIVE_EXCHANGE; Some MEANING_NEGOTIATION;
     Some REFLECTION_ITERATION; Some COMPLETE] ∧
  phase_of sid run.2 = Some COMPLETE ∧
  phase_transitions run.2 =
    (phase_transitions db ++
      [transition_by sid SETUP SHARED_FRAMING c1.1 "Manual advance";
       transition_by sid SHARED_FRAMING PERSPECTIVE_EXCHANGE c2.1 "Manual advance";
       transition_by sid PERSPECTIVE_EXCHANGE MEANING_NEGOTIATION c3.1 "Manual advance";
       transition_by sid MEANING_NEGOTIATION REFLECTION_ITERATION c4.1 "Manual advance";
       transition_by sid REFLECTION_ITERATION COMPLETE c5.1 "Manual advance"])%list ∧
  advance_phase sid c6.1 c6.2 run.2 =
    (Raise (HTTPException 400 "Session sudah selesai"), run.2).
Proof.
  intros Hs Hp.
  destruct c1 as [u1 t1], c2 as [u2 t2], c3 as [u3 t3], c4 as [u4 t4],
           c5 as [u5 t5], c6 as [u6 t6].
  assert (Hq : next_in_order (current_phase s) = Some SHARED_FRAMING) by (by rewrite Hp).
  cbn [advance_many phase_trace fst snd].
  do 5 (advance_once; cbn [fst snd]).
  rewrite ?current_phase_advanced, Hp. unfold phase_of.
  cbn [codesign_sessions phase_transitions].
  rewrite ?lookup_insert_eq. cbn [fmap option_fmap option_map].
  rewrite ?current_phase_advanced.
  repeat split.
  - repeat constructor; eauto.
  - by rewrite <- !app_assoc.
  - eapply advance_phase_complete; [apply lookup_insert_eq | apply current_phase_advanced].
Qed.

Definition demo_user : User := mkUser 7 "designer".
Definition demo_session : CoDesignSession := mkSession "demo" SETUP 7 None None.
Definition demo_db : Database := serve (ReqCreate 1 "demo") demo_user 0 empty_db.

Lemma advance_five_times_witness :
  codesign_sessions demo_db !! 1%N = Some demo_session ∧
  current_phase demo_session = SETUP ∧
  let run := advance_many 1 (replicate 5 (demo_user, 3)) demo_db in
  phase_of 1 run.2 = Some COMPLETE ∧
  length (phase_transitions run.2) = 5 ∧
  advance_phase 1 demo_user 9 run.2 =
    (Raise (HTTPException 400 "Session sudah selesai"), run.2).
Proof.
  split; [reflexivity|]. split; [reflexivity|].
  pose proof (advance_five_times_reaches_complete 1 demo_db demo_session
                (demo_user, 3) (demo_user, 3) (demo_user, 3) (demo_user, 3)
                (demo_user, 3) (demo_user, 9) eq_refl eq_refl)
    as (_ & _ & _ & Hphase & Htrans & Hsixth).
  split; [exact Hphase|]. split; [|exact Hsixth].
  simpl in Htrans |- *. rewrite Htrans. reflexivity.
Defined.

(** C7. [start_session] succeeds only on a session in phase setup: on
    any other phase it is refused with status 400 and the detail
    "Session sudah dimulai" (session already started) and changes
    nothing. On a session in setup it moves the session to
    shared_framing and appends one PhaseTransition record (setup to
    shared_framing); a second call right after it is refused in the
    same way, and after the two calls the session has exactly one
    recorded transition into shared_framing. *)
Theorem start_session_once sid db s u1 t1 u2 t2 :
  reachable db →
  codesign_sessions db !! sid = Some s →
  (current_phase s ≠ SETUP →
     start_session sid u1 t1 db = (Raise (HTTPException 400 "Session sudah dimulai"), db)) ∧
  (current_phase s = SETUP →
     ∃ body db1,
       start_session sid u1 t1 db = (Ok body, db1) ∧
       phase_of sid db1 = Some SHARED_FRAMING ∧
       phase_transitions db1 =
         (phase_transitions db ++
            [transition_by sid SETUP SHARED_FRAMING u1 "Session started"])%list ∧
       start_session sid u2 t2 db1 =
         (Raise (HTTPException 400 "Session sudah dimulai"), db1) ∧
       length (transitions_into sid SHARED_FRAMING
                 (start_session sid u2 t2 db1).2) = 1).
Proof.
  intros Hr Hs. split; intros Hp.
  - by apply start_session_refused with s.
  - eexists _, _. split; [by apply start_session_ok|].
    assert (Hsecond : ∀ db1 s1, codesign_sessions db1 !! sid = Some s1 →
              current_phase s1 = SHARED_FRAMING →
              start_session sid u2 t2 db1 =
                (Raise (HTTPException 400 "Session sudah dimulai"), db1)).
    { intros db1 s1 H1 H2. apply start_session_refused with s1; [done|]. by rewrite H2. }
    split; [|split; [|split]].
    + unfold phase_of. simpl. by rewrite lookup_insert_eq.
    + reflexivity.
    + eapply Hsecond; [apply lookup_insert_eq | reflexivity].
    + erewrite Hsecond; [|apply lookup_insert_eq | reflexivity].
      unfold transitions_into. simpl. rewrite filter_app.
      fold (transitions_into sid SHARED_FRAMING db).
      rewrite (setup_no_transition db sid s SHARED_FRAMING Hr Hs Hp).
      rewrite filter_cons_True by done. reflexivity.
Qed.

Lemma start_session_once_witness :
  reachable demo_db ∧
  codesign_sessions demo_db !! 1%N = Some demo_session ∧
  ∃ body db1,
    start_session 1 demo_user 4 demo_db = (Ok body, db1) ∧
    start_session 1 demo_user 5 db1 =
      (Raise (HTTPException 400 "Session sudah dimulai"), db1) ∧
    length (transitions_into 1 SHARED_FRAMING (start_session 1 demo_user 5 db1).2) = 1.
Proof.
  assert (Hr : reachable demo_db) by (apply reachable_serve, reachable_empty).
  split; [exact Hr|]. split; [reflexivity|].
  destruct (start_session_once 1 demo_db demo_session demo_user 4 demo_user 5 Hr eq_refl)
    as [_ Hok].
  destruct (Hok eq_refl) as (body & db1 & H1 & _ & _ & H2 & H3).
  exists body, db1. auto.
Defined.

End SessionsSpec.

(** ** Insertion-ordered dicts *)

Module PyDictFacts.
Import PyDict.

Section Facts.
Context {V : Type}.
Implicit Types (d : list (string * V)) (k : string) (v : V).

Lemma get_set_eq k v d : get k (set k v d) = Some v.
Proof.
  induction d as [|[k' v'] d IH]; simpl.
  - by rewrite String.eqb_refl.
  - destruct (String.eqb k k') eqn:E; simpl; rewrite E; [done | exact IH].
Qed.


Lemma keys_set_in k v d : k ∈ keys d → keys (set k v d) = keys d.
Proof.
  unfold keys. induction d as [|[k0 v0] d IH]; simpl; intros Hin.
  - by apply elem_of_nil in Hin.
  - destruct (String.eqb k k0) eqn:E; simpl; [done|].
    f_equal. apply IH. apply elem_of_cons in Hin as [->|Hin]; [|done].
    by rewrite String.eqb_refl in E.
Qed.

Lemma keys_set_notin k v d : k ∉ keys d → keys (set k v d) = (keys d ++ [k])%list.
Proof.
  unfold keys. induction d as [|[k0 v0] d IH]; simpl; intros Hin; [done|].
  destruct (String.eqb k k0) eqn:E; simpl.
  - apply String.eqb_eq in E. subst. exfalso. apply Hin. by left.
  - f_equal. apply IH. intros H. apply Hin. by right.
Qed.

Lemma get_None_iff k d : get k d = None ↔ k ∉ keys d.
Proof.
  unfold keys. induction d as [|[k0 v0] d IH]; simpl.
  - split; [intros _; apply not_elem_of_nil | done].
  - destruct (String.eqb k k0) eqn:E.
    + apply String.eqb_eq in E. subst. split; [done|]. intros H. exfalso. apply H. by left.
    + rewrite IH. apply String.eqb_neq in E. rewrite not_elem_of_cons. tauto.
Qed.

Lemma wf_set k v d : wf d → wf (set k v d).
Proof.
  unfold wf. intros Hd. destruct (decide (k ∈ keys d)) as [Hin|Hnin].
  - by rewrite keys_set_in.
  - rewrite keys_set_notin by done. apply NoDup_app. split; [done|].
    split; [|apply NoDup_singleton].
    intros x Hx Hx'. apply list_elem_of_singleton in Hx'. by subst.
Qed.

Lemma pop_set k v d : pop k (set k v d) = pop k d.
Proof.
  induction d as [|[k0 v0] d IH]; simpl.
  - by rewrite String.eqb_refl.
  - destruct (String.eqb k k0) eqn:E; simpl; rewrite E; [done | by rewrite IH].
Qed.

Lemma keys_pop_subseteq k d : keys (pop k d) ⊆ keys d.
Proof.
  unfold keys. induction d as [|[k0 v0] d IH]; simpl; [done|].
  destruct (String.eqb k k0); simpl.
  - intros x Hx. by right.
  - intros x Hx. apply elem_of_cons in Hx as [->|Hx]; [by left | right; by apply IH].
Qed.

Lemma wf_pop k d : wf d → wf (pop k d).
Proof.
  unfold wf, keys. induction d as [|[k0 v0] d IH]; simpl; [done|].
  intros Hd. apply NoDup_cons in Hd as [Hk0 Hd].
  destruct (String.eqb k k0); simpl; [done|].
  apply NoDup_cons. split; [|by apply IH].
  intros Hin. apply Hk0. by apply (keys_pop_subseteq k d).
Qed.

Lemma get_pop_eq k d : wf d → get k (pop k d) = None.
Proof.
  unfold wf, keys. induction d as [|[k0 v0] d IH]; simpl; [done|].
  intros Hd. apply NoDup_cons in Hd as [Hk0 Hd].
  destruct (String.eqb k k0) eqn:E; simpl.
  - apply String.eqb_eq in E. subst. by apply get_None_iff.
  - rewrite E. by apply IH.
Qed.

Lemma get_pop_ne k k' d : k ≠ k' → get k' (pop k d) = get k' d.
Proof.
  intros Hne. induction d as [|[k0 v0] d IH]; simpl; [done|].
  destruct (String.eqb k k0) eqn:E; simpl.
  - apply String.eqb_eq in E. subst k0.
    destruct (String.eqb k' k) eqn:E'; [|done].
    apply String.eqb_eq in E'. congruence.
  - by rewrite IH.
Qed.

Lemma keys_pop k d : wf d → keys (pop k d) = filter (fun x => x ≠ k) (keys d).
Proof.
  unfold wf, keys. induction d as [|[k0 v0] d IH]; simpl; [done|].
  intros Hd. apply NoDup_cons in Hd as [Hk0 Hd].
  destruct (String.eqb k k0) eqn:E; simpl.
  - apply String.eqb_eq in E. subst k0. rewrite filter_cons_False by naive_solver.
    clear IH Hd. induction d as [|[k1 v1] d IH]; simpl; [done|].
    apply not_elem_of_cons in Hk0 as [Hne Hk0]. simpl in *.
    rewrite filter_cons_True by done. f_equal. by apply IH.
  - apply String.eqb_neq in E. rewrite filter_cons_True by done.
    simpl. f_equal. by apply IH.
Qed.

Lemma get_Some_elem_of k v d : get k d = Some v → (k, v) ∈ d.
Proof.
  induction d as [|[k0 v0] d IH]; simpl; [done|].
  destruct (String.eqb k k0) eqn:E.
  - apply String.eqb_eq in E. intros [= ->]. subst. by left.
  - intros H. right. by apply IH.
Qed.

Lemma elem_of_get k v d : wf d → (k, v) ∈ d → get k d = Some v.
Proof.
  unfold wf, keys. induction d as [|[k0 v0] d IH]; simpl; intros Hd Hin.
  - by apply elem_of_nil in Hin.
  - apply NoDup_cons in Hd as [Hk0 Hd].
    apply elem_of_cons in Hin as [[= -> ->]|Hin].
    + by rewrite String.eqb_refl.
    + destruct (String.eqb k k0) eqn:E; [|by apply IH].
      apply String.eqb_eq in E. subst k0. exfalso. apply Hk0.
      apply list_elem_of_fmap. by exists (k, v).
Qed.

End Facts.
End PyDictFacts.

(** ** The connection manager and the message handlers *)

Module HandlerSpec.
Import Py Handler.

(** *** What a computation may change *)

(** A relation between the world before and the world after that the
    basic effects of a message handler stay within. *)
Record permits (P : World → World → Prop) : Prop := mkPermits {
  permits_refl : ∀ w, P w w;
  permits_trans : ∀ w1 w2 w3, P w1 w2 → P w2 w3 → P w1 w3;
  permits_sent : ∀ ws m err w, P w (log_event (Sent ws m err) w);
  permits_print : ∀ line w, P w (print line w).2;
  permits_utcnow : ∀ w, P w (utcnow w).2;
  permits_uuid : ∀ w, P w (new_uuid w).2;
  permits_redis : ∀ r w, P w (set_redis r w);
  permits_mongodb : ∀ m w, P w (set_mongodb m w)
}.

Definition respects (P : World → World → Prop) {A : Type} (m : M A) : Prop :=
  ∀ w, P w (m w).2.

Section Respects.
Context (P : World → World → Prop) (HP : permits P).

Lemma respects_mret {A} (a : A) : respects P (mret a : M A).
Proof. intros w. apply (permits_refl P HP). Qed.

Lemma respects_raise {A} e : respects P (raise e : M A).
Proof. intros w. apply (permits_refl P HP). Qed.

Lemma respects_gets {A} (f : World → A) : respects P (gets f).
Proof. intros w. apply (permits_refl P HP). Qed.

Lemma respects_bind {A B} (m : M A) (f : A → M B) :
  respects P m → (∀ a, respects P (f a)) → respects P (m ≫= f).
Proof.
  intros Hm Hf w. specialize (Hm w). unfold mbind, M_bind.
  destruct (m w) as [[a|e] w1]; simpl in *; [|done].
  eapply (permits_trans P HP); [exact Hm | apply Hf].
Qed.

Lemma respects_try_except {A} (m : M A) (h : exn → M A) :
  respects P m → (∀ e, respects P (h e)) → respects P (try_except m h).
Proof.
  intros Hm Hh w. specialize (Hm w). unfold try_except.
  destruct (m w) as [[a|e] w1]; simpl in *; [done|].
  eapply (permits_trans P HP); [exact Hm | apply Hh].
Qed.

Lemma respects_for_each {X} (l : list X) (body : X → M unit) :
  (∀ x, respects P (body x)) → respects P (for_each l body).
Proof.
  intros Hbody. induction l as [|x l IH]; simpl.
  - apply respects_mret.
  - apply respects_bind; [apply Hbody | intros _; exact IH].
Qed.

Lemma respects_print line : respects P (print line).
Proof. intros w. apply (permits_print P HP). Qed.

Lemma respects_utcnow : respects P utcnow.
Proof. intros w. apply (permits_utcnow P HP). Qed.

Lemma respects_new_uuid : respects P new_uuid.
Proof. intros w. apply (permits_uuid P HP). Qed.

Lemma respects_send_text ws m : respects P (send_text ws m).
Proof.
  intros w. unfold send_text.
  destruct (send_text_error _ _ _); simpl; apply (permits_sent P HP).
Qed.

Lemma respects_redis_do f : respects P (redis_do f).
Proof. intros w. apply (permits_redis P HP). Qed.

Lemma respects_redis_set_presence s u data : respects P (redis_set_presence s u data).
Proof.
  intros w. unfold redis_set_presence.
  destruct (Redis.set_presence _ _ _ _) as [[[]|e] r]; simpl; apply (permits_redis P HP).
Qed.

Lemma respects_insert_one doc : respects P (insert_one doc).
Proof.
  intros w. unfold insert_one.
  destruct (mongodb w); [|apply (permits_refl P HP)].
  destruct (insert_one_error _ _); simpl;
    [apply (permits_refl P HP) | apply (permits_mongodb P HP)].
Qed.

Lemma respects_agent s a b c d e : respects P (agent_process_message s a b c d e).
Proof.
  intros w. unfold agent_process_message.
  destruct (process_message _ _ _ _ _ _ _); apply (permits_refl P HP).
Qed.

Lemma respects_decode_audio a : respects P (decode_audio a).
Proof.
  intros w. unfold decode_audio.
  destruct a; try apply (permits_refl P HP).
  destruct (b64decode _ _); apply (permits_refl P HP).
Qed.

Lemma respects_stt a : respects P (stt_transcribe_bytes a).
Proof.
  intros w. unfold stt_transcribe_bytes.
  destruct (transcribe_bytes _ _); apply (permits_refl P HP).
Qed.

Lemma respects_py_get o k dflt : respects P (py_get o k dflt).
Proof. destruct o; first [apply respects_mret | apply respects_raise]. Qed.

Lemma respects_with_user_id u payload : respects P (with_user_id u payload).
Proof. destruct payload; first [apply respects_mret | apply respects_raise]. Qed.

Lemma respects_broadcast_to_session s m ex : respects P (broadcast_to_session s m ex).
Proof.
  unfold broadcast_to_session. apply respects_bind; [apply respects_gets|].
  intros conns. destruct (conns !! s); [|apply respects_mret].
  apply respects_for_each. intros [u ws]. simpl.
  case_decide; [|apply respects_mret].
  apply respects_try_except; [apply respects_send_text | intros e; apply respects_print].
Qed.

Lemma respects_send_to_user s u m : respects P (send_to_user s u m).
Proof.
  unfold send_to_user. apply respects_bind; [apply respects_gets|].
  intros conns. destruct (conns !! s) as [d|]; [|apply respects_mret].
  destruct (PyDict.get u d); [|apply respects_mret].
  apply respects_try_except; [apply respects_send_text | intros e; apply respects_print].
Qed.

Ltac respects_step :=
  first
    [ apply respects_broadcast_to_session
    | apply respects_send_to_user
    | apply respects_bind; [|intros ?]
    | apply respects_mret
    | apply respects_raise
    | apply respects_gets
    | apply respects_utcnow
    | apply respects_new_uuid
    | apply respects_py_get
    | apply respects_with_user_id
    | apply respects_redis_do
    | apply respects_redis_set_presence
    | apply respects_insert_one
    | apply respects_agent
    | apply respects_decode_audio
    | apply respects_stt
    | match goal with
      | |- respects _ (if ?b then _ else _) => destruct b
      | |- respects _ (match ?x with _ => _ end) => destruct x
      end ].

Lemma respects_handle_ai_message ws s u info payload :
  respects P (_handle_ai_message ws s u info payload).
Proof. unfold _handle_ai_message. repeat respects_step. Qed.

Lemma respects_handler name h ws s u info payload :
  PyDict.get name handlers = Some h → respects P (h ws s u info payload).
Proof.
  unfold handlers. simpl.
  repeat (destruct (String.eqb name _);
          [intros [= <-];
           first [ apply respects_handle_ai_message
                 | unfold _handle_ping, _handle_presence_update, _handle_typing_start,
                     _handle_typing_stop, _handle_chat_message, _handle_voice_input,
                     _handle_crdt_update, _handle_phase_advance;
                   repeat first [apply respects_handle_ai_message | respects_step] ] |]).
  done.
Qed.

Lemma respects_handle_message ws s u info data :
  respects P (handle_message ws s u info data).
Proof.
  unfold handle_message.
  apply respects_bind; [apply respects_py_get | intros msg_type].
  apply respects_bind; [apply respects_py_get | intros payload].
  intros w. unfold handlers_get, mbind, M_bind.
  destruct msg_type as [|b|n|name|l|d]; cbn -[PyDict.get handlers];
    try apply (respects_send_to_user _ _ _ w);
    try apply (permits_refl P HP).
  destruct (PyDict.get name handlers) as [h|] eqn:Hh; cbn -[PyDict.get handlers].
  - by apply (respects_handler name).
  - apply (respects_send_to_user _ _ _ w).
Qed.

End Respects.

(** *** What goes out on the websockets *)

(** The calls of [send_text] among some events: on which channel, with
    which message. *)
Definition deliveries (evs : list Event) : list (nat * json) :=
  omap (fun e => match e with Sent ws m _ => Some (ws, m) | _ => None end) evs.

(** How many times [send_text] was called on a channel. *)
Definition calls_on (ws : nat) (evs : list Event) : nat :=
  length (filter (fun p => p.1 = ws) (deliveries evs)).

(** The world after some more socket events and printed lines, and
    nothing else. *)
Definition with_io (evs : list Event) (out : list string) (w : World) : World :=
  mkWorld (active_connections w) (session_participants w) (redis w) (mongodb w)
          (sockets w ++ evs) (stdout w ++ out) (clock_reads w) (uuid_draws w) (env w).

(** The connection map of a session (empty when the session has none). *)
Definition channels (session_id : string) (w : World) : list (string * nat) :=
  default [] (active_connections w !! session_id).

(** The items of a connection map a broadcast goes to. *)
Definition recipients (d : list (string * nat)) (exclude_user : option string)
    : list (string * nat) :=
  filter (fun item => Some item.1 ≠ exclude_user) d.

(** One [send_text] per item, in order, each with the given message. *)
Definition sent_to_each (message : json) (items : list (string * nat))
    (evs : list Event) : Prop :=
  Forall2 (fun item e => ∃ err, e = Sent item.2 message err) items evs.

Lemma with_io_nil w : with_io [] [] w = w.
Proof. destruct w. unfold with_io. simpl. by rewrite !app_nil_r. Qed.

Lemma with_io_with_io evs1 out1 evs2 out2 w :
  with_io evs2 out2 (with_io evs1 out1 w) = with_io (evs1 ++ evs2) (out1 ++ out2) w.
Proof. unfold with_io. simpl. by rewrite !app_assoc. Qed.

Lemma deliveries_sent_to_each message items evs :
  sent_to_each message items evs →
  deliveries evs = (fun item => (item.2, message)) <$> items.
Proof.
  induction 1 as [|item e items evs [err ->] _ IH]; [done|].
  change (deliveries (Sent item.2 message err :: evs))
    with ((item.2, message) :: deliveries evs).
  by rewrite IH.
Qed.

(** One delivery attempt of a broadcast, with its failure swallowed. *)
Lemma guarded_send_text ws message user_id w :
  ∃ err out,
    try_except (send_text ws message)
      (fun e => print ("Error sending to " ++ user_id ++ ": " ++ exn_str e)) w
    = (Ok (), with_io [Sent ws message err] out w).
Proof.
  unfold try_except, send_text.
  destruct (send_text_error (env w) (sockets w) ws) as [msg|] eqn:E.
  - exists (Some msg), ["Error sending to " ++ user_id ++ ": " ++ msg]. reflexivity.
  - exists None, []. unfold with_io, log_event. simpl. by rewrite app_nil_r.
Qed.

Lemma broadcast_loop message exclude_user d w :
  ∃ evs out,
    for_each d (fun item =>
      if decide (Some item.1 ≠ exclude_user) then
        try_except (send_text item.2 message)
          (fun e => print ("Error sending to " ++ item.1 ++ ": " ++ exn_str e))
      else mret ()) w
    = (Ok (), with_io evs out w) ∧
    sent_to_each message (recipients d exclude_user) evs.
Proof.
  revert w. induction d as [|[u ws] d IH]; intros w.
  - exists [], []. rewrite with_io_nil. split; [done | constructor].
  - cbn [for_each]. unfold mbind, M_bind. cbn [fst snd].
    unfold recipients. rewrite filter_cons. cbn [fst].
    destruct (decide (Some u ≠ exclude_user)) as [Hne|Heq].
    + destruct (guarded_send_text ws message u w) as (err & out & ->).
      destruct (IH (with_io [Sent ws message err] out w)) as (evs & out' & -> & Hall).
      exists (Sent ws message err :: evs), (out ++ out')%list.
      rewrite with_io_with_io. split; [done|].
      constructor; [by exists err | exact Hall].
    + destruct (IH w) as (evs & out' & Hrun & Hall).
      exists evs, out'. split; [exact Hrun | exact Hall].
Qed.

Lemma broadcast_to_session_spec session_id message exclude_user w :
  ∃ evs out,
    broadcast_to_session session_id message exclude_user w = (Ok (), with_io evs out w) ∧
    sent_to_each message
      (recipients (default [] (active_connections w !! session_id)) exclude_user) evs.
Proof.
  unfold broadcast_to_session, mbind, M_bind, gets.
  destruct (active_connections w !! session_id) as [d|]; simpl.
  - apply broadcast_loop.
  - exists [], []. rewrite with_io_nil. split; [done | constructor].
Qed.

Lemma send_to_user_spec session_id user_id message w :
  ∃ evs out,
    send_to_user session_id user_id message w = (Ok (), with_io evs out w) ∧
    match PyDict.get user_id (default [] (active_connections w !! session_id)) with
    | Some ws => ∃ err, evs = [Sent ws message err]
    | None => evs = []
    end.
Proof.
  unfold send_to_user, mbind, M_bind, gets.
  destruct (active_connections w !! session_id) as [d|]; simpl.
  - destruct (PyDict.get user_id d) as [ws|].
    + destruct (guarded_send_text ws message user_id w) as (err & out & ->).
      exists [Sent ws message err], out. split; [done|]. by exists err.
    + exists [], []. rewrite with_io_nil. by repeat split.
  - exists [], []. rewrite with_io_nil. by repeat split.
Qed.

Lemma calls_on_sent_to_each ws message items evs :
  sent_to_each message items evs →
  calls_on ws evs = length (filter (fun x => x = ws) items.*2).
Proof.
  intros H. unfold calls_on. rewrite (deliveries_sent_to_each _ _ _ H). clear H.
  induction items as [|[u c] items IH]; [done|].
  rewrite !fmap_cons. cbn [snd]. rewrite !filter_cons. cbn [fst].
  destruct (decide (c = ws)); simpl; by rewrite IH.
Qed.

Lemma count_absent {A} `{EqDecision A} (x : A) (xs : list A) :
  x ∉ xs → length (filter (fun y => y = x) xs) = 0.
Proof.
  induction xs as [|y xs IH]; [done|]. intros Hx.
  apply not_elem_of_cons in Hx as [Hne Hx].
  rewrite filter_cons_False by congruence. by apply IH.
Qed.

Lemma count_NoDup {A} `{EqDecision A} (x : A) (xs : list A) :
  NoDup xs → x ∈ xs → length (filter (fun y => y = x) xs) = 1.
Proof.
  induction 1 as [|y xs Hy Hxs IH]; intros Hx.
  - by apply elem_of_nil in Hx.
  - destruct (decide (y = x)) as [->|Hne].
    + rewrite filter_cons_True by done. simpl. by rewrite count_absent.
    + rewrite filter_cons_False by done. apply IH.
      apply elem_of_cons in Hx as [?|?]; [congruence | done].
Qed.

(** In a map whose channels are pairwise distinct, a channel belongs to
    one user only. *)
Lemma channel_owner (d : list (string * nat)) u v ws :
  NoDup d.*2 → (u, ws) ∈ d → (v, ws) ∈ d → u = v.
Proof.
  induction d as [|[k c] d IH]; simpl; intros Hd Hu Hv.
  - by apply elem_of_nil in Hu.
  - apply NoDup_cons in Hd as [Hc Hd].
    apply elem_of_cons in Hu as [Hu|Hu]; apply elem_of_cons in Hv as [Hv|Hv].
    + congruence.
    + exfalso. apply Hc. apply list_elem_of_fmap. exists (v, ws).
      split; [simpl; congruence | done].
    + exfalso. apply Hc. apply list_elem_of_fmap. exists (u, ws).
      split; [simpl; congruence | done].
    + by apply IH.
Qed.

(** How often a broadcast calls [send_text] on the channel of an attached
    user: never for the excluded user, once for anybody else. *)
Lemma broadcast_to_session_calls session_id message exclude_user w :
  NoDup (channels session_id w).*2 →
  ∃ evs out,
    broadcast_to_session session_id message exclude_user w = (Ok (), with_io evs out w) ∧
    sent_to_each message (recipients (channels session_id w) exclude_user) evs ∧
    (∀ v ws, PyDict.get v (channels session_id w) = Some ws →
       calls_on ws evs = if decide (Some v = exclude_user) then 0 else 1).
Proof.
  intros Hchan.
  destruct (broadcast_to_session_spec session_id message exclude_user w)
    as (evs & out & Hrun & Hsent).
  fold (channels session_id w) in Hsent.
  exists evs, out. split; [exact Hrun|]. split; [exact Hsent|].
  assert (Hsub : (recipients (channels session_id w) exclude_user).*2
                   `sublist_of` (channels session_id w).*2).
  { apply fmap_sublist, sublist_filter. }
  intros v ws Hws. rewrite (calls_on_sent_to_each _ _ _ _ Hsent).
  apply PyDictFacts.get_Some_elem_of in Hws.
  case_decide as Hv.
  - apply count_absent. intros Hin.
    apply list_elem_of_fmap in Hin as ([v' c] & Hc & Hin). simpl in Hc. subst c.
    apply list_elem_of_filter in Hin as [Hne Hin]. simpl in Hne.
    assert (v' = v) by (by eapply channel_owner). congruence.
  - apply count_NoDup; [by eapply sublist_NoDup|].
    apply list_elem_of_fmap. exists (v, ws). split; [done|].
    apply list_elem_of_filter. split; [simpl; congruence | done].
Qed.

(** C1. [broadcast_to_session(session, event, exclude_user=U)] returns
    without raising whatever [send_text] does on any channel (each peer
    may fail or not: the outcome of every call is arbitrary here); it
    calls [send_text] with the event once per attached user other than
    U, in the order of the connection map, and so never on the channel of
    U and exactly once on the channel of every other attached user. It
    changes nothing but the socket log and the printed lines. *)
Theorem broadcast_excludes_only_the_excluded_user w session_id d message U :
  active_connections w !! session_id = Some d →
  NoDup d.*2 →
  ∃ evs out,
    broadcast_to_session session_id message (Some U) w = (Ok (), with_io evs out w) ∧
    sent_to_each message (recipients d (Some U)) evs ∧
    (∀ ws, PyDict.get U d = Some ws → calls_on ws evs = 0) ∧
    (∀ V ws, V ≠ U → PyDict.get V d = Some ws → calls_on ws evs = 1).
Proof.
  intros Hd Hchan.
  assert (Hch : channels session_id w = d) by (unfold channels; by rewrite Hd).
  destruct (broadcast_to_session_calls session_id message (Some U) w)
    as (evs & out & Hrun & Hsent & Hcalls); [by rewrite Hch|].
  rewrite Hch in Hsent, Hcalls.
  exists evs, out. split; [exact Hrun|]. split; [exact Hsent|]. split.
  - intros ws Hws. rewrite (Hcalls U ws Hws). by rewrite decide_True.
  - intros V ws Hne Hws. rewrite (Hcalls V ws Hws). rewrite decide_False; [done|congruence].
Qed.

Lemma broadcast_excludes_witness :
  active_connections Samples.three_users !! "s" = Some [("A", 1); ("B", 2); ("C", 3)] ∧
  NoDup [("A", 1); ("B", 2); ("C", 3)].*2 ∧
  ∃ evs out,
    broadcast_to_session "s" Samples.hello (Some "A") Samples.three_users
      = (Ok (), with_io evs out Samples.three_users) ∧
    calls_on 1 evs = 0 ∧ calls_on 2 evs = 1 ∧ calls_on 3 evs = 1.
Proof.
  assert (H1 : active_connections Samples.three_users !! "s"
               = Some [("A", 1); ("B", 2); ("C", 3)]) by (vm_compute; reflexivity).
  assert (H3 : NoDup [("A", 1); ("B", 2); ("C", 3)].*2).
  { apply (bool_decide_unpack _). vm_compute. exact I. }
  split; [exact H1|]. split; [exact H3|].
  destruct (broadcast_excludes_only_the_excluded_user
              Samples.three_users "s" _ Samples.hello "A" H1 H3)
    as (evs & out & Hrun & _ & HA & Hothers).
  exists evs, out. split; [exact Hrun|].
  split; [by apply HA|].
  split; [by apply (Hothers "B") | by apply (Hothers "C")].
Defined.

End HandlerSpec.

Module ManagerSpec.
Import Py Handler HandlerSpec.

Definition is_sent (e : Event) : Prop := ∃ ws m err, e = Sent ws m err.

(** A computation that only talks: it leaves the registry and the
    collaborators as they are, and what it adds to the socket log are
    calls of [send_text]. *)
Definition talks (w w' : World) : Prop :=
  active_connections w' = active_connections w ∧
  session_participants w' = session_participants w ∧
  env w' = env w ∧
  ∃ evs, sockets w' = (sockets w ++ evs)%list ∧ Forall is_sent evs.

Lemma talks_refl w : talks w w.
Proof. repeat split. exists []. by rewrite app_nil_r. Qed.

Lemma talks_trans w1 w2 w3 : talks w1 w2 → talks w2 w3 → talks w1 w3.
Proof.
  intros (Ha & Hp & He & evs & Hs & Hall) (Ha' & Hp' & He' & evs' & Hs' & Hall').
  split; [congruence|]. split; [congruence|]. split; [congruence|].
  exists (evs ++ evs')%list. split; [|by apply Forall_app].
  by rewrite Hs', Hs, app_assoc.
Qed.

Lemma talks_quiet w w' :
  active_connections w' = active_connections w →
  session_participants w' = session_participants w →
  env w' = env w →
  sockets w' = sockets w →
  talks w w'.
Proof.
  intros Ha Hp He Hs. repeat split; try done.
  exists []. by rewrite Hs, app_nil_r.
Qed.

Lemma permits_talks : permits talks.
Proof.
  split.
  - apply talks_refl.
  - apply talks_trans.
  - intros ws m err w. repeat split. exists [Sent ws m err].
    split; [done|]. constructor; [by exists ws, m, err | constructor].
  - intros line w. by apply talks_quiet.
  - intros w. by apply talks_quiet.
  - intros w. by apply talks_quiet.
  - intros r w. by apply talks_quiet.
  - intros m w. by apply talks_quiet.
Qed.

(** No handler touches the registry: whatever a frame is and whatever
    the handler does with it, the connection maps and the participant
    sets are the same afterwards. *)
Lemma handle_message_talks ws s u info data w :
  talks w (handle_message ws s u info data w).2.
Proof. apply (respects_handle_message talks permits_talks). Qed.

(** *** connect *)

(** Every session with a connection map has a participant set. *)
Definition consistent (w : World) : Prop :=
  ∀ s, is_Some (active_connections w !! s) → is_Some (session_participants w !! s).

(** The participant set [connect] adds the user to. *)
Definition members_before (session_id : string) (w : World) : gset string :=
  match active_connections w !! session_id with
  | None => ∅
  | Some _ => default ∅ (session_participants w !! session_id)
  end.

(** The world once [connect] has accepted the websocket and stored it. *)
Definition registered (ws : nat) (session_id user_id : string) (w : World) : World :=
  set_session_participants
    (<[session_id := {[user_id]} ∪ members_before session_id w]> (session_participants w))
    (set_active_connections
       (<[session_id := PyDict.set user_id ws (channels session_id w)]> (active_connections w))
       (log_event (Accepted ws) w)).

(** What [connect] does after that: presence, [user_joined],
    [session_state]. *)
Definition announce (session_id user_id : string) (user_info : list (string * json))
    : M unit :=
  redis_do (Redis.add_participant session_id user_id);;
  connected_at ← utcnow;
  redis_set_presence session_id user_id
    [("status", JStr "active");
     ("name", dict_get user_info "name" (JStr ""));
     ("role", dict_get user_info "role" (JStr ""));
     ("connected_at", JStr connected_at)];;
  timestamp ← utcnow;
  broadcast_to_session session_id
    (JObj [("type", JStr "user_joined");
           ("payload", JObj [("user_id", JStr user_id);
                             ("name", dict_get user_info "name" (JStr ""));
                             ("role", dict_get user_info "role" (JStr ""))]);
           ("timestamp", JStr timestamp)])
    (Some user_id);;
  parts ← gets session_participants;
  match parts !! session_id with
  | None => raise (KeyError session_id)
  | Some uids =>
      r ← gets redis;
      send_to_user session_id user_id
        (JObj [("type", JStr "session_state");
               ("payload", JObj [("participants",
                                  JArr (collect_presence session_id (elements uids) r));
                                 ("your_id", JStr user_id)])])
  end.

Lemma connect_unfold ws s u info w :
  consistent w →
  connect ws s u info w = announce s u info (registered ws s u w).
Proof.
  intros Hc. unfold connect, registered, members_before, channels.
  unfold mbind at 1 2 3 4 5. unfold M_bind at 1 2 3 4 5.
  unfold accept, modify, gets. cbn [fst snd].
  change (active_connections (log_event (Accepted ws) w)) with (active_connections w).
  destruct (active_connections w !! s) as [d|] eqn:Hd.
  - destruct (Hc s) as [p Hp]; [by eexists|].
    unfold mret, M_ret, store_connection. cbn [active_connections log_event].
    rewrite Hd. unfold add_session_participant.
    cbn [session_participants set_active_connections log_event].
    rewrite Hp. reflexivity.
  - unfold mbind at 1. unfold M_bind at 1. cbn [fst snd].
    unfold store_connection.
    cbn [active_connections set_session_participants set_active_connections log_event].
    rewrite lookup_insert_eq. unfold add_session_participant.
    cbn [session_participants set_session_participants set_active_connections log_event].
    rewrite lookup_insert_eq. cbn [default].
    unfold set_session_participants, set_active_connections. cbn.
    rewrite !insert_insert_eq. reflexivity.
Qed.

Lemma announce_talks s u info : respects talks (announce s u info).
Proof.
  pose proof permits_talks as HP. unfold announce.
  repeat first
    [ apply (respects_broadcast_to_session talks HP)
    | apply (respects_send_to_user talks HP)
    | apply (respects_redis_do talks HP)
    | apply (respects_redis_set_presence talks HP)
    | apply (respects_utcnow talks HP)
    | apply (respects_gets talks HP)
    | apply (respects_raise talks HP)
    | apply (respects_bind talks HP); [|intros ?]
    | match goal with |- respects _ (match ?x with _ => _ end) => destruct x end ].
Qed.

Lemma connect_talks_after_registering ws s u info w :
  consistent w →
  talks (registered ws s u w) (connect ws s u info w).2.
Proof. intros Hc. rewrite connect_unfold by done. apply announce_talks. Qed.

Lemma channels_registered ws s u w :
  channels s (registered ws s u w) = PyDict.set u ws (channels s w).
Proof. unfold channels at 1, registered. simpl. by rewrite lookup_insert_eq. Qed.

Lemma channels_talks s w w' : talks w w' → channels s w' = channels s w.
Proof. intros (Ha & _). unfold channels. by rewrite Ha. Qed.

Lemma consistent_registered ws s u w : consistent w → consistent (registered ws s u w).
Proof.
  intros Hc s'. unfold registered. simpl.
  destruct (decide (s = s')) as [->|Hne].
  - rewrite !lookup_insert_eq. by eexists.
  - rewrite !lookup_insert_ne by done. apply Hc.
Qed.

Lemma consistent_talks w w' : talks w w' → consistent w → consistent w'.
Proof. intros (Ha & Hp & _) Hc s. rewrite Ha, Hp. apply Hc. Qed.

Lemma consistent_connect ws s u info w :
  consistent w → consistent (connect ws s u info w).2.
Proof.
  intros Hc. eapply consistent_talks; [by apply connect_talks_after_registering|].
  by apply consistent_registered.
Qed.

Lemma consistent_empty_world : consistent Samples.empty_world.
Proof. intros s [d Hd]. simpl in Hd. by rewrite lookup_empty in Hd. Qed.

Lemma consistent_three_users : consistent Samples.three_users.
Proof. do 3 apply consistent_connect. apply consistent_empty_world. Qed.

(** The [close] calls among some events. *)
Definition closings (evs : list Event) : list (nat * nat * string) :=
  omap (fun e => match e with Closed ws c r => Some (ws, c, r) | _ => None end) evs.

Lemma closings_app evs1 evs2 : closings (evs1 ++ evs2) = (closings evs1 ++ closings evs2)%list.
Proof. unfold closings. apply omap_app. Qed.

Lemma closings_sent evs : Forall is_sent evs → closings evs = [].
Proof.
  induction 1 as [|e evs (ws & m & err & ->) _ IH]; [done|].
  exact IH.
Qed.

Lemma count_key (d : list (string * nat)) u :
  length (filter (fun item => item.1 = u) d) = length (filter (fun k => k = u) (PyDict.keys d)).
Proof.
  unfold PyDict.keys. induction d as [|[k c] d IH]; [done|].
  rewrite fmap_cons, !filter_cons. cbn [fst].
  destruct (decide (k = u)); simpl; by rewrite IH.
Qed.

(** C3 (as amended). When a channel is already attached for (session,
    user), [connect] with a second channel puts the new channel in the
    place of the first in the connection map: afterwards the map has
    exactly one entry for the user, and it is the new channel. The first
    channel is not closed: [connect] accepts the new websocket and then
    only sends messages; it calls [close] on no channel. *)
Theorem connect_replaces_entry_without_closing w ws s u info old :
  consistent w →
  PyDict.wf (channels s w) →
  PyDict.get u (channels s w) = Some old →
  let w' := (connect ws s u info w).2 in
  PyDict.get u (channels s w') = Some ws ∧
  length (filter (fun item => item.1 = u) (channels s w')) = 1 ∧
  PyDict.keys (channels s w') = PyDict.keys (channels s w) ∧
  ∃ evs, sockets w' = (sockets w ++ Accepted ws :: evs)%list ∧
         Forall is_sent evs ∧
         closings (Accepted ws :: evs) = [].
Proof.
  intros Hc Hwf Hold w'.
  pose proof (connect_talks_after_registering ws s u info w Hc) as Htalk.
  fold w' in Htalk.
  rewrite (channels_talks s _ _ Htalk), channels_registered.
  assert (Hin : u ∈ PyDict.keys (channels s w)).
  { destruct (decide (u ∈ PyDict.keys (channels s w))) as [|Hn]; [done|].
    apply PyDictFacts.get_None_iff in Hn. congruence. }
  split; [apply PyDictFacts.get_set_eq|].
  split.
  { rewrite count_key, PyDictFacts.keys_set_in by done. by apply count_NoDup. }
  split; [by apply PyDictFacts.keys_set_in|].
  destruct Htalk as (_ & _ & _ & evs & Hs & Hall).
  exists evs. split; [|split; [done|]].
  - rewrite Hs. unfold registered. simpl. by rewrite <- app_assoc.
  - change (closings (Accepted ws :: evs)) with (closings evs). by apply closings_sent.
Qed.

Lemma connect_replaces_entry_witness :
  consistent Samples.three_users ∧
  PyDict.wf (channels "s" Samples.three_users) ∧
  PyDict.get "A" (channels "s" Samples.three_users) = Some 1 ∧
  let w' := (connect 9 "s" "A" (Samples.info_of "A") Samples.three_users).2 in
  PyDict.get "A" (channels "s" w') = Some 9 ∧
  length (filter (fun item => item.1 = "A") (channels "s" w')) = 1.
Proof.
  pose proof consistent_three_users as H1.
  assert (H2 : PyDict.wf (channels "s" Samples.three_users)).
  { apply (bool_decide_unpack _). vm_compute. exact I. }
  split; [exact H1|]. split; [exact H2|]. split; [reflexivity|].
  destruct (connect_replaces_entry_without_closing
              Samples.three_users 9 "s" "A" (Samples.info_of "A") 1 H1 H2 eq_refl)
    as (Hget & Hone & _).
  split; [exact Hget | exact Hone].
Defined.

(** C3 as stated fails: with A attached on websocket 1, attaching
    websocket 9 for A stores 9 in the place of 1, and websocket 1 is
    never closed (no [close] at all is recorded). *)
Lemma connect_leaves_prior_channel_open :
  let w := Samples.three_users in
  let w' := (connect 9 "s" "A" (Samples.info_of "A") w).2 in
  PyDict.get "A" (channels "s" w) = Some 1 ∧
  PyDict.get "A" (channels "s" w') = Some 9 ∧
  closings (sockets w') = [] ∧
  ¬ (∃ code reason, Closed 1 code reason ∈ sockets w').
Proof.
  split; [reflexivity|]. split; [vm_compute; reflexivity|].
  assert (Hnone : closings (sockets (connect 9 "s" "A" (Samples.info_of "A")
                                       Samples.three_users).2) = [])
    by (vm_compute; reflexivity).
  split; [exact Hnone|].
  intros (code & reason & Hin).
  assert (Hc : (1, code, reason) ∈
               closings (sockets (connect 9 "s" "A" (Samples.info_of "A")
                                    Samples.three_users).2)).
  { unfold closings. apply list_elem_of_omap. by exists (Closed 1 code reason). }
  rewrite Hnone in Hc. by apply elem_of_nil in Hc.
Qed.

(** *** disconnect *)

(** The world once [disconnect] has dropped the user from the registry. *)
Definition forgotten (session_id user_id : string) (w : World) : World :=
  match active_connections w !! session_id with
  | None => w
  | Some d =>
      match PyDict.pop user_id d with
      | [] =>
          set_session_participants (delete session_id (session_participants w))
            (set_active_connections (delete session_id (active_connections w)) w)
      | d' =>
          set_session_participants
            (<[session_id := default ∅ (session_participants w !! session_id) ∖ {[user_id]}]>
               (session_participants w))
            (set_active_connections (<[session_id := d']> (active_connections w)) w)
      end
  end.

Lemma forget_connection_spec s u w :
  consistent w → forget_connection s u w = (Ok (), forgotten s u w).
Proof.
  intros Hc. unfold forget_connection, forgotten.
  destruct (active_connections w !! s) as [d|] eqn:Hd; [|done].
  destruct (Hc s) as [p Hp]; [by eexists|].
  cbn [session_participants set_active_connections]. rewrite Hp. cbn [default].
  destruct (PyDict.pop u d) as [|item d'] eqn:Hpop; [|done].
  unfold set_session_participants, set_active_connections. cbn.
  by rewrite !delete_insert_eq.
Qed.

Lemma channels_forgotten s u w :
  channels s (forgotten s u w) = PyDict.pop u (channels s w).
Proof.
  unfold channels, forgotten.
  destruct (active_connections w !! s) as [d|] eqn:Hd; simpl.
  - destruct (PyDict.pop u d) as [|item d'] eqn:Hpop; simpl.
    + by rewrite lookup_delete_eq.
    + by rewrite lookup_insert_eq.
  - by rewrite Hd.
Qed.

Lemma get_session_users_forgotten s u w :
  is_Some (active_connections w !! s) → u ∉ get_session_users s (forgotten s u w).
Proof.
  intros [d Hd]. unfold get_session_users, forgotten. rewrite Hd.
  destruct (PyDict.pop u d) as [|item d'] eqn:Hpop; simpl.
  - rewrite lookup_delete_eq. simpl. apply not_elem_of_empty.
  - rewrite lookup_insert_eq. simpl. apply not_elem_of_difference. right.
    by apply elem_of_singleton.
Qed.

Lemma structures_forgotten s u w :
  PyDict.pop u (channels s w) = [] →
  active_connections (forgotten s u w) !! s = None ∧
  session_participants (forgotten s u w) !! s = None ∨
  active_connections w !! s = None.
Proof.
  unfold channels, forgotten.
  destruct (active_connections w !! s) as [d|] eqn:Hd; simpl; [|by right].
  intros ->. left. simpl. by rewrite !lookup_delete_eq.
Qed.

Lemma recipients_None d : recipients d None = d.
Proof.
  unfold recipients. induction d as [|x d IH]; [done|].
  rewrite filter_cons_True by done. by rewrite IH.
Qed.

Definition user_left (user_id timestamp : string) : json :=
  JObj [("type", JStr "user_left");
        ("payload", JObj [("user_id", JStr user_id)]);
        ("timestamp", JStr timestamp)].

(** [disconnect]: the user is dropped from the registry, then
    [user_left] goes to whoever is still attached to the session. *)
Lemma disconnect_spec s u w :
  consistent w →
  ∃ evs out w',
    disconnect s u w = (Ok (), w') ∧
    active_connections w' = active_connections (forgotten s u w) ∧
    session_participants w' = session_participants (forgotten s u w) ∧
    env w' = env w ∧
    sockets w' = (sockets w ++ evs)%list ∧
    stdout w' = (stdout w ++ out)%list ∧
    sent_to_each (user_left u (utcnow_isoformat (env w) (clock_reads w)))
                 (PyDict.pop u (channels s w)) evs.
Proof.
  intros Hc. unfold disconnect.
  unfold mbind at 1. unfold M_bind at 1. rewrite forget_connection_spec by done.
  unfold mbind at 1. unfold M_bind at 1. unfold redis_do, modify.
  unfold mbind at 1. unfold M_bind at 1. unfold utcnow.
  set (w1 := mkWorld _ _ _ _ _ _ _ _ _).
  destruct (broadcast_to_session_spec s
              (user_left u (utcnow_isoformat (env (forgotten s u w))
                                             (clock_reads (forgotten s u w)))) None w1)
    as (evs & out & Hrun & Hsent).
  assert (Henv : env (forgotten s u w) = env w ∧
                 clock_reads (forgotten s u w) = clock_reads w ∧
                 sockets (forgotten s u w) = sockets w ∧
                 stdout (forgotten s u w) = stdout w).
  { unfold forgotten. destruct (active_connections w !! s) as [d|]; [|done].
    destruct (PyDict.pop u d); repeat split. }
  destruct Henv as (He & Hk & Hso & Hst).
  exists evs, out, (with_io evs out w1).
  split; [exact Hrun|].
  split; [done|]. split; [done|]. split; [exact He|].
  split; [simpl; by rewrite Hso|]. split; [simpl; by rewrite Hst|].
  rewrite <- He, <- Hk, <- channels_forgotten.
  rewrite recipients_None in Hsent. exact Hsent.
Qed.

(** C9. Attach, then detach, the same (session, user): [disconnect]
    returns normally; the user is no longer among the users of the
    session; if no other user is attached, the connection map and the
    participant set of the session are deleted, and otherwise the map is
    what it was before the attach without the user; and [user_left] is
    sent once to every user still attached, and to nobody else. *)
Theorem attach_then_detach w ws s u info :
  consistent w →
  let w1 := (connect ws s u info w).2 in
  let rest := PyDict.pop u (channels s w) in
  ∃ evs w2,
    disconnect s u w1 = (Ok (), w2) ∧
    (u ∉ get_session_users s w2) ∧
    channels s w2 = rest ∧
    (rest = [] →
       active_connections w2 !! s = None ∧ session_participants w2 !! s = None) ∧
    (rest ≠ [] → active_connections w2 !! s = Some rest) ∧
    sockets w2 = (sockets w1 ++ evs)%list ∧
    sent_to_each (user_left u (utcnow_isoformat (env w1) (clock_reads w1))) rest evs.
Proof.
  intros Hc w1 rest.
  pose proof (connect_talks_after_registering ws s u info w Hc) as Htalk.
  fold w1 in Htalk.
  assert (Hc1 : consistent w1).
  { eapply consistent_talks; [exact Htalk|]. by apply consistent_registered. }
  assert (Hch : channels s w1 = PyDict.set u ws (channels s w)).
  { by rewrite (channels_talks s _ _ Htalk), channels_registered. }
  assert (Hin : is_Some (active_connections w1 !! s)).
  { destruct Htalk as (-> & _). unfold registered. simpl.
    rewrite lookup_insert_eq. by eexists. }
  destruct (disconnect_spec s u w1 Hc1) as (evs & out & w2 & Hrun & Ha & Hp & He & Hs & _ & Hsent).
  rewrite Hch, PyDictFacts.pop_set in Hsent.
  assert (Hch2 : channels s w2 = rest).
  { unfold channels at 1. rewrite Ha. fold (channels s (forgotten s u w1)).
    by rewrite channels_forgotten, Hch, PyDictFacts.pop_set. }
  exists evs, w2. split; [exact Hrun|].
  split.
  { unfold get_session_users. rewrite Hp. by apply get_session_users_forgotten. }
  split; [exact Hch2|].
  split; [|split; [|split; [exact Hs | exact Hsent]]].
  - intros Hrest. rewrite Ha, Hp.
    destruct (structures_forgotten s u w1) as [H|H].
    + by rewrite Hch, PyDictFacts.pop_set.
    + exact H.
    + destruct Hin as [d Hd]. congruence.
  - intros Hrest. revert Hch2. unfold channels.
    destruct (active_connections w2 !! s) as [d|]; simpl; [by intros ->|].
    intros Heq. by rewrite <- Heq in Hrest.
Qed.

Lemma attach_then_detach_witness :
  consistent Samples.empty_world ∧
  let w1 := (connect 1 "s" "A" (Samples.info_of "A") Samples.empty_world).2 in
  ∃ w2,
    disconnect "s" "A" w1 = (Ok (), w2) ∧
    ("A" ∉ get_session_users "s" w2) ∧
    active_connections w2 !! "s" = None ∧
    session_participants w2 !! "s" = None.
Proof.
  pose proof consistent_empty_world as H.
  split; [exact H|].
  destruct (attach_then_detach Samples.empty_world 1 "s" "A" (Samples.info_of "A") H)
    as (evs & w2 & Hrun & Hout & _ & Hgone & _).
  exists w2. split; [exact Hrun|]. split; [exact Hout|]. by apply Hgone.
Defined.

(** *** Invariants of the registry *)

(** Every connection map has its keys once. *)
Definition maps_wf (w : World) : Prop :=
  ∀ s d, active_connections w !! s = Some d → PyDict.wf d.

Lemma maps_wf_talks w w' : talks w w' → maps_wf w → maps_wf w'.
Proof. intros (Ha & _) Hwf s d. rewrite Ha. apply Hwf. Qed.

Lemma maps_wf_registered ws s u w : maps_wf w → maps_wf (registered ws s u w).
Proof.
  intros Hwf s' d. unfold registered. simpl.
  destruct (decide (s = s')) as [->|Hne].
  - rewrite lookup_insert_eq. intros [= <-]. apply PyDictFacts.wf_set.
    unfold channels. destruct (active_connections w !! s') as [d0|] eqn:Hd0; simpl.
    + by apply (Hwf s').
    + apply NoDup_nil_2.
  - rewrite lookup_insert_ne by done. apply Hwf.
Qed.

Lemma maps_wf_forgotten s u w : maps_wf w → maps_wf (forgotten s u w).
Proof.
  intros Hwf s' d'. unfold forgotten.
  destruct (active_connections w !! s) as [d|] eqn:Hd; [|apply Hwf].
  pose proof (PyDictFacts.wf_pop u d (Hwf s d Hd)) as Hpop.
  destruct (PyDict.pop u d) as [|item rest] eqn:E; simpl.
  - destruct (decide (s = s')) as [->|Hne].
    + by rewrite lookup_delete_eq.
    + rewrite lookup_delete_ne by done. apply Hwf.
  - destruct (decide (s = s')) as [->|Hne].
    + rewrite lookup_insert_eq. by intros [= <-].
    + rewrite lookup_insert_ne by done. apply Hwf.
Qed.

Lemma consistent_forgotten s u w : consistent w → consistent (forgotten s u w).
Proof.
  intros Hc s'. unfold forgotten.
  destruct (active_connections w !! s) as [d|] eqn:Hd; [|apply Hc].
  destruct (PyDict.pop u d) as [|item rest]; simpl.
  - destruct (decide (s = s')) as [->|Hne].
    + rewrite lookup_delete_eq. by intros [? ?].
    + rewrite !lookup_delete_ne by done. apply Hc.
  - destruct (decide (s = s')) as [->|Hne].
    + rewrite !lookup_insert_eq. by eexists.
    + rewrite !lookup_insert_ne by done. apply Hc.
Qed.

Lemma manager_step_invariant w w' :
  manager_step w w' → consistent w ∧ maps_wf w → consistent w' ∧ maps_wf w'.
Proof.
  intros Hstep [Hc Hwf]. destruct Hstep as [ws s u info w|s u w|ws s u info data w].
  - pose proof (connect_talks_after_registering ws s u info w Hc) as Htalk. split.
    + by apply consistent_connect.
    + eapply maps_wf_talks; [exact Htalk|]. by apply maps_wf_registered.
  - destruct (disconnect_spec s u w Hc) as (evs & out & w2 & Hrun & Ha & Hp & _).
    rewrite Hrun. cbn [snd]. split.
    + intros s'. rewrite Ha, Hp. by apply consistent_forgotten.
    + intros s' d. rewrite Ha. by apply maps_wf_forgotten.
  - pose proof (handle_message_talks ws s u info data w) as Htalk. split.
    + by eapply consistent_talks.
    + by eapply maps_wf_talks.
Qed.

(** In every world the service can reach, each session with a connection
    map has a participant set, and no map has a user twice. *)
Lemma manager_reachable_invariant w :
  manager_reachable w → consistent w ∧ maps_wf w.
Proof.
  induction 1 as [w Ha Hp|w w' _ IH Hstep].
  - split.
    + intros s [d Hd]. rewrite Ha in Hd. by rewrite lookup_empty in Hd.
    + intros s d Hd. rewrite Ha in Hd. by rewrite lookup_empty in Hd.
  - by eapply manager_step_invariant.
Qed.

End ManagerSpec.

(** ** The message dispatcher *)

Module DispatchSpec.
Import Py Handler HandlerSpec ManagerSpec.

(** The world after one reading of the clock. *)
Definition tick (w : World) : World := (utcnow w).2.

(** The world after one UUID was drawn. *)
Definition draw (w : World) : World := (new_uuid w).2.

Definition phase_changed (new_phase : json) (user_id timestamp : string) : json :=
  JObj [("type", JStr "phase_changed");
        ("payload", JObj [("new_phase", new_phase);
                          ("triggered_by", JStr user_id);
                          ("timestamp", JStr timestamp)])].

(** C6 (as amended). Handling a [phase_advance] frame (its payload an
    object) involves no phase state machine and has no failure path: it
    reads the clock and broadcasts to every user attached to the session,
    the sender included, one [phase_changed] event whose payload carries
    [new_phase] (what the frame gave as [new_phase], null when it gave
    none), [triggered_by] (the sender) and [timestamp]. It sends nothing
    else, in particular no error event, and changes nothing but the
    socket log, the printed lines and the clock. *)
Theorem phase_advance_only_broadcasts ws s u info p w :
  ∃ evs out,
    _handle_phase_advance ws s u info (JObj p) w = (Ok (), with_io evs out (tick w)) ∧
    sent_to_each
      (phase_changed (dict_get p "new_phase" JNull) u
                     (utcnow_isoformat (env w) (clock_reads w)))
      (channels s w) evs.
Proof.
  unfold _handle_phase_advance, py_get.
  unfold mbind at 1. unfold M_bind at 1. cbn [mret M_ret].
  unfold mbind at 1. unfold M_bind at 1. unfold utcnow at 1.
  destruct (broadcast_to_session_spec s
              (phase_changed (dict_get p "new_phase" JNull) u
                             (utcnow_isoformat (env w) (clock_reads w))) None (tick w))
    as (evs & out & Hrun & Hsent).
  exists evs, out. split; [exact Hrun|].
  rewrite recipients_None in Hsent. exact Hsent.
Qed.

Definition chat_message (message_id user_id : string) (info : list (string * json))
    (content : json) (timestamp : string) : json :=
  JObj [("type", JStr "chat_message");
        ("payload", JObj [("message_id", JStr message_id);
                          ("user_id", JStr user_id);
                          ("name", dict_get info "name" JNull);
                          ("role", dict_get info "role" JNull);
                          ("content", content);
                          ("timestamp", JStr timestamp)])].

Definition crdt_update (artifact_id update : json) (origin : string) : json :=
  JObj [("type", JStr "crdt_update");
        ("payload", JObj [("artifact_id", artifact_id);
                          ("update", update);
                          ("origin", JStr origin)])].

(** What follows the broadcast in the chat handler writes the
    interaction log only. *)
Lemma chat_log_keeps_sockets s u info p w :
  ∀ r w',
    (db ← gets mongodb;
     match db with
     | None => mret ()
     | Some _ =>
         logged ← py_get (JObj p) "content" JNull;
         logged_at ← utcnow;
         insert_one
           (JObj [("session_id", JStr s);
                  ("interaction_type", JStr "chat_message");
                  ("actor", JObj [("user_id", JStr u);
                                  ("role", dict_get info "role" JNull)]);
                  ("data", JObj [("content", logged)]);
                  ("timestamp", JStr logged_at)])
     end) w = (r, w') →
    sockets w' = sockets w ∧ active_connections w' = active_connections w.
Proof.
  intros r w'. unfold mbind at 1. unfold M_bind at 1. unfold gets. 
  destruct (mongodb w) as [logs|] eqn:Hm.
  - unfold py_get, mbind, M_bind, mret, M_ret, utcnow, insert_one. cbn.
    rewrite Hm. destruct (insert_one_error (env w) logs); intros [= <- <-]; done.
  - intros [= <- <-]. done.
Qed.

(** Running a handler step by step. *)
Lemma run_bind {A B} (m : M A) (f : A → M B) w :
  (m ≫= f) w =
  match m w with
  | (Ok a, w') => f a w'
  | (Raise e, w') => (Raise e, w')
  end.
Proof. reflexivity. Qed.

Lemma run_utcnow w : utcnow w = (Ok (utcnow_isoformat (env w) (clock_reads w)), tick w).
Proof. reflexivity. Qed.

Lemma run_new_uuid w : new_uuid w = (Ok (uuid4 (env w) (uuid_draws w)), draw w).
Proof. reflexivity. Qed.

Lemma run_py_get d k dflt w : py_get (JObj d) k dflt w = (Ok (dict_get d k dflt), w).
Proof. reflexivity. Qed.


Ltac run_step L := rewrite run_bind, L; cbv beta iota.

Ltac run_broadcast evs out Hrun Hsent Hcalls :=
  rewrite ?run_bind;
  match goal with
  | |- context [broadcast_to_session ?s ?m ?ex ?w0] =>
      destruct (broadcast_to_session_calls s m ex w0)
        as (evs & out & Hrun & Hsent & Hcalls);
      [try assumption | rewrite Hrun; cbv beta iota]
  end.

(** C5. A [chat_message] frame (its payload an object) is sent once to
    every user attached to the session, the sender included, as one event
    that carries the message id drawn by the server ([uuid4]) and the
    time read by the server; this holds whether or not the write to the
    interaction log that follows succeeds. A [crdt_update] frame is sent
    once to every attached user except its sender, and never on the
    channel of the sender. *)
Theorem chat_is_echoed_crdt_update_is_not ws s u info p w :
  NoDup (channels s w).*2 →
  (∃ evs r w',
     _handle_chat_message ws s u info (JObj p) w = (r, w') ∧
     sockets w' = (sockets w ++ evs)%list ∧
     sent_to_each
       (chat_message (uuid4 (env w) (uuid_draws w)) u info
                     (dict_get p "content" (JStr ""))
                     (utcnow_isoformat (env w) (clock_reads w)))
       (channels s w) evs ∧
     (∀ v c, PyDict.get v (channels s w) = Some c → calls_on c evs = 1)) ∧
  (∃ evs out,
     _handle_crdt_update ws s u info (JObj p) w = (Ok (), with_io evs out w) ∧
     sent_to_each
       (crdt_update (dict_get p "artifact_id" JNull) (dict_get p "update" JNull) u)
       (recipients (channels s w) (Some u)) evs ∧
     (∀ c, PyDict.get u (channels s w) = Some c → calls_on c evs = 0) ∧
     (∀ v c, v ≠ u → PyDict.get v (channels s w) = Some c → calls_on c evs = 1)).
Proof.
  intros Hchan. split.
  - unfold _handle_chat_message.
    run_step run_new_uuid. run_step run_py_get. run_step run_utcnow.
    run_broadcast evs out Hrun Hsent Hcalls.
    rewrite recipients_None in Hsent.
    match goal with
    | |- ∃ evs r w', ?m ?w0 = _ ∧ _ =>
        destruct (m w0) as [r w'] eqn:Hlog
    end.
    apply chat_log_keeps_sockets in Hlog as [Hso _].
    exists evs, r, w'. split; [done|]. split; [by rewrite Hso|].
    split; [exact Hsent|].
    intros v c Hv. rewrite (Hcalls v c Hv). by rewrite decide_False.
  - unfold _handle_crdt_update.
    run_step run_py_get. run_step run_py_get.
    run_broadcast evs out Hrun Hsent Hcalls.
    exists evs, out. split; [done|]. split; [exact Hsent|]. split.
    + intros c Hc. rewrite (Hcalls u c Hc). by rewrite decide_True.
    + intros v c Hne Hc. rewrite (Hcalls v c Hc). rewrite decide_False; [done|congruence].
Qed.

Lemma chat_echo_witness :
  NoDup (channels "s" Samples.three_users).*2 ∧
  (∃ evs r w',
     _handle_chat_message 1 "s" "A" (Samples.info_of "A") (JObj [("content", JStr "hi")])
       Samples.three_users = (r, w') ∧
     calls_on 1 evs = 1 ∧ calls_on 2 evs = 1 ∧ calls_on 3 evs = 1) ∧
  (∃ evs out,
     _handle_crdt_update 1 "s" "A" (Samples.info_of "A") (JObj [("update", JStr "AAEC")])
       Samples.three_users = (Ok (), with_io evs out Samples.three_users) ∧
     calls_on 1 evs = 0 ∧ calls_on 2 evs = 1 ∧ calls_on 3 evs = 1).
Proof.
  assert (H : NoDup (channels "s" Samples.three_users).*2).
  { apply (bool_decide_unpack _). vm_compute. exact I. }
  split; [exact H|].
  destruct (chat_is_echoed_crdt_update_is_not 1 "s" "A" (Samples.info_of "A")
              [("content", JStr "hi")] Samples.three_users H)
    as [(evs & r & w' & Hrun & _ & _ & Hall) _].
  destruct (chat_is_echoed_crdt_update_is_not 1 "s" "A" (Samples.info_of "A")
              [("update", JStr "AAEC")] Samples.three_users H)
    as [_ (evs' & out & Hrun' & _ & Hself & Hothers)].
  split.
  - exists evs, r, w'. split; [exact Hrun|].
    split; [by apply (Hall "A")|]. split; [by apply (Hall "B") | by apply (Hall "C")].
  - exists evs', out. split; [exact Hrun'|].
    split; [by apply Hself|]. split; [by apply (Hothers "B") | by apply (Hothers "C")].
Defined.

(** C6 as stated fails: with A, B and C attached, a [phase_advance]
    frame is answered by a [phase_changed] event to all three whose
    payload is [new_phase], [triggered_by], [timestamp], with no [from]
    and no [to]; and a frame that names no phase at all is answered the
    same way, with a null [new_phase], instead of an error to the
    sender. *)
Lemma phase_advance_has_no_from_to_and_no_failure :
  let w := Samples.three_users in
  let frame p := JObj [("type", JStr "phase_advance"); ("payload", JObj p)] in
  let sent p := deliveries (drop (length (sockets w))
                  (sockets (handle_message 1 "s" "A" (Samples.info_of "A") (frame p) w).2)) in
  let body np := [("new_phase", np); ("triggered_by", JStr "A"); ("timestamp", JStr "t6")] in
  let event np := JObj [("type", JStr "phase_changed"); ("payload", JObj (body np))] in
  sent [("new_phase", JStr "perspective_exchange")]
    = [(1, event (JStr "perspective_exchange")); (2, event (JStr "perspective_exchange"));
       (3, event (JStr "perspective_exchange"))] ∧
  PyDict.get "from" (body (JStr "perspective_exchange")) = None ∧
  PyDict.get "to" (body (JStr "perspective_exchange")) = None ∧
  (handle_message 1 "s" "A" (Samples.info_of "A") (frame []) w).1 = Ok () ∧
  sent [] = [(1, event JNull); (2, event JNull); (3, event JNull)].
Proof. vm_compute. repeat split. Qed.

(** *** Unknown and malformed type tags *)

Definition error_event (message : string) : json :=
  JObj [("type", JStr "error"); ("payload", JObj [("message", JStr message)])].

(** A frame whose type tag has a hash and names no handler is answered
    by one "Unknown message type" error, sent to the channel registered
    for the sender and to no other; nothing else changes. *)
Lemma unknown_type_is_reported_to_the_sender ws s u info d k w :
  hash (dict_get d "type" (JStr "")) = Ok k →
  (∀ name, k = KStr name → PyDict.get name handlers = None) →
  ∃ evs out,
    handle_message ws s u info (JObj d) w = (Ok (), with_io evs out w) ∧
    match PyDict.get u (channels s w) with
    | Some c => ∃ err, evs = [Sent c (error_event ("Unknown message type: " ++ str k)) err]
    | None => evs = []
    end.
Proof.
  intros Hk Hnone. unfold handle_message.
  run_step run_py_get. run_step run_py_get. rewrite run_bind.
  unfold handlers_get. rewrite Hk.
  assert (Hfound : ∃ w0, (match k with
                     | KStr s0 => mret (PyDict.get s0 handlers, KStr s0)
                     | _ => mret (None, k)
                     end : M (option handler * key)) w0 = (Ok (None, k), w0) ∧ w0 = w).
  { exists w. split; [|done]. destruct k; try done. by rewrite (Hnone s0 eq_refl). }
  destruct Hfound as (w0 & Hfound & ->). rewrite Hfound. cbv beta iota. cbn [fst snd].
  destruct (send_to_user_spec s u (error_event ("Unknown message type: " ++ str k)) w)
    as (evs & out & Hrun & Hevs).
  exists evs, out. split; [exact Hrun | exact Hevs].
Qed.

(** C10, where the code departs from it: a type tag without a hash (a
    JSON array or object) makes the lookup in the handler table raise
    [TypeError]; no error event is sent and nothing is changed, and the
    receive loop of the endpoint takes the exception as the end of the
    connection: it prints the error and disconnects the sender. *)
Theorem unhashable_type_tag_raises ws s u info d tag e w :
  PyDict.get "type" d = Some tag →
  hash tag = Raise e →
  handle_message ws s u info (JObj d) w = (Raise e, w) ∧
  ∃ msg, e = TypeError msg ∧
    receive_loop ws s u info [Frame (JObj d)] w
      = (disconnect s u;; mret Returned) (print ("WebSocket error: " ++ msg) w).2.
Proof.
  intros Htag He.
  assert (Hrun : handle_message ws s u info (JObj d) w = (Raise e, w)).
  { assert (Hdg : dict_get d "type" (JStr "") = tag)
      by (unfold dict_get; by rewrite Htag).
    unfold handle_message. run_step run_py_get. run_step run_py_get.
    rewrite run_bind, Hdg. unfold handlers_get. by rewrite He. }
  split; [exact Hrun|].
  destruct tag; try discriminate He; injection He as <-;
    (eexists; split; [reflexivity|]; cbn [receive_loop]; by rewrite Hrun).
Qed.

Lemma unhashable_type_tag_witness :
  PyDict.get "type" [("type", JArr [])] = Some (JArr []) ∧
  hash (JArr []) = Raise (TypeError "unhashable type: 'list'") ∧
  handle_message 1 "s" "A" (Samples.info_of "A") (JObj [("type", JArr [])])
      Samples.three_users
    = (Raise (TypeError "unhashable type: 'list'"), Samples.three_users).
Proof.
  split; [reflexivity|]. split; [reflexivity|].
  exact (proj1 (unhashable_type_tag_raises 1 "s" "A" (Samples.info_of "A")
                  [("type", JArr [])] (JArr []) _ Samples.three_users eq_refl eq_refl)).
Defined.

(** The same on a sample: A sends the frame; A gets nothing back, is
    dropped from the session, and the endpoint returns. *)
Example unhashable_type_tag_sample :
  let w := Samples.three_users in
  let r := receive_loop 1 "s" "A" (Samples.info_of "A")
             [Frame (JObj [("type", JArr [])])] w in
  r.1 = Ok Returned ∧
  calls_on 1 (drop (length (sockets w)) (sockets r.2)) = 0 ∧
  channels "s" r.2 = [("B", 2); ("C", 3)].
Proof. vm_compute. repeat split. Qed.

(** *** A handler that raises *)

Lemma forgotten_other s u w s' :
  s' ≠ s →
  active_connections (forgotten s u w) !! s' = active_connections w !! s' ∧
  session_participants (forgotten s u w) !! s' = session_participants w !! s'.
Proof.
  intros Hne. unfold forgotten.
  destruct (active_connections w !! s) as [d|]; [|done].
  destruct (PyDict.pop u d); simpl.
  - by rewrite !lookup_delete_ne.
  - by rewrite !lookup_insert_ne.
Qed.

(** What the endpoint does when the handling of a frame raises: it
    leaves its loop, whatever frames would follow, and disconnects. *)
Lemma receive_loop_raise ws s u info data rest w e w1 :
  handle_message ws s u info data w = (Raise e, w1) →
  ∃ out,
    receive_loop ws s u info (Frame data :: rest) w
      = (disconnect s u;; mret Returned) (with_io [] out w1).
Proof.
  intros H. cbn [receive_loop]. rewrite H.
  destruct e;
    first [ exists []; by rewrite with_io_nil
          | eexists [_]; unfold with_io; rewrite app_nil_r; reflexivity ].
Qed.

(** C4 (as amended). When the handling of a frame raises, the endpoint
    sends no error notification: it leaves its receive loop (the frames
    that would follow are not read), drops the sender from the registry
    of the session, sends [user_left] to the users still attached to the
    session and returns, which ends the connection. The registry entries
    of the other sessions are as they were before the frame. *)
Theorem handler_exception_disconnects_the_sender ws s u info data rest w e w1 :
  consistent w →
  handle_message ws s u info data w = (Raise e, w1) →
  ∃ evs w2,
    receive_loop ws s u info (Frame data :: rest) w = (Ok Returned, w2) ∧
    sockets w2 = (sockets w1 ++ evs)%list ∧
    sent_to_each (user_left u (utcnow_isoformat (env w1) (clock_reads w1)))
                 (PyDict.pop u (channels s w)) evs ∧
    channels s w2 = PyDict.pop u (channels s w) ∧
    (u ∉ get_session_users s w2 ∨ active_connections w !! s = None) ∧
    (∀ s', s' ≠ s →
       active_connections w2 !! s' = active_connections w !! s' ∧
       session_participants w2 !! s' = session_participants w !! s').
Proof.
  intros Hc Hraise.
  pose proof (handle_message_talks ws s u info data w) as Htalk.
  rewrite Hraise in Htalk. cbn [snd] in Htalk.
  destruct (receive_loop_raise ws s u info data rest w e w1 Hraise) as (out & ->).
  set (w1' := with_io [] out w1).
  assert (Htalk' : talks w w1').
  { eapply talks_trans; [exact Htalk|]. apply talks_quiet; try done.
    unfold w1', with_io. simpl. by rewrite app_nil_r. }
  assert (Hc1 : consistent w1') by (by eapply consistent_talks).
  destruct (disconnect_spec s u w1' Hc1)
    as (evs & out' & w2 & Hrun & Ha & Hp & He & Hs & _ & Hsent).
  rewrite (channels_talks s _ _ Htalk') in Hsent.
  exists evs, w2. rewrite run_bind, Hrun. cbv beta iota.
  split; [done|].
  split; [rewrite Hs; unfold w1', with_io; simpl; by rewrite app_nil_r|].
  split; [exact Hsent|].
  split.
  { unfold channels at 1. rewrite Ha. fold (channels s (forgotten s u w1')).
    by rewrite channels_forgotten, (channels_talks s _ _ Htalk'). }
  destruct Htalk' as (Hreg & Hpart & _).
  split.
  { destruct (active_connections w !! s) as [d|] eqn:Hd; [left | by right].
    unfold get_session_users. rewrite Hp. apply get_session_users_forgotten.
    rewrite Hreg, Hd. by eexists. }
  intros s' Hne. rewrite Ha, Hp, <- Hreg, <- Hpart. by apply forgotten_other.
Qed.

Definition bad_chat : json :=
  JObj [("type", JStr "chat_message"); ("payload", JStr "hi")].

Lemma handler_exception_witness :
  consistent Samples.three_users ∧
  handle_message 1 "s" "A" (Samples.info_of "A") bad_chat Samples.three_users
    = (Raise (AttributeError "'str' object has no attribute 'get'"),
       draw Samples.three_users) ∧
  ∃ w2,
    receive_loop 1 "s" "A" (Samples.info_of "A") [Frame bad_chat] Samples.three_users
      = (Ok Returned, w2) ∧
    channels "s" w2 = [("B", 2); ("C", 3)].
Proof.
  pose proof consistent_three_users as Hc.
  split; [exact Hc|]. split; [reflexivity|].
  destruct (handler_exception_disconnects_the_sender 1 "s" "A" (Samples.info_of "A")
              bad_chat [] Samples.three_users _ _ Hc eq_refl)
    as (evs & w2 & Hrun & _ & _ & Hch & _).
  exists w2. split; [exact Hrun | exact Hch].
Defined.

(** C4 as stated fails: A, B and C are attached; A sends a chat frame
    whose payload is a string. The handler raises; nothing is sent to A
    (no error notification); A is dropped from the session; B and C are
    sent [user_left]; the endpoint returns with the next frame unread. *)
Lemma handler_exception_is_not_reported :
  let w := Samples.three_users in
  let ping := JObj [("type", JStr "ping")] in
  let r := receive_loop 1 "s" "A" (Samples.info_of "A") [Frame bad_chat; Frame ping] w in
  let sent := deliveries (drop (length (sockets w)) (sockets r.2)) in
  (handle_message 1 "s" "A" (Samples.info_of "A") bad_chat w).1
    = Raise (AttributeError "'str' object has no attribute 'get'") ∧
  r.1 = Ok Returned ∧
  sent = [(2, user_left "A" "t6"); (3, user_left "A" "t6")] ∧
  PyDict.get "A" (channels "s" r.2) = None ∧
  "A" ∉ get_session_users "s" r.2.
Proof.
  vm_compute. repeat split. intros H. discriminate H.
Qed.

End DispatchSpec.

(** ** The presence store *)

Module RedisSpec.
Import Py Redis.

Lemma hset_fields_other mapping h f :
  f ∉ PyDict.keys mapping → hset_fields mapping h !! f = h !! f.
Proof.
  unfold hset_fields, PyDict.keys. revert h.
  induction mapping as [|[k v] mapping IH]; intros h Hf; [done|].
  rewrite fmap_cons in Hf. apply not_elem_of_cons in Hf as [Hne Hf].
  cbn [foldl fst snd]. rewrite IH by done.
  destruct (encode v); [|done]. by rewrite lookup_insert_ne.
Qed.

Lemma hset_fields_written mapping h f v :
  PyDict.wf mapping → first_refused mapping = None → (f, v) ∈ mapping →
  hset_fields mapping h !! f = encode v.
Proof.
  unfold hset_fields, PyDict.wf, PyDict.keys. revert h.
  induction mapping as [|[k x] mapping IH]; intros h Hwf Hok Hin.
  - by apply elem_of_nil in Hin.
  - rewrite fmap_cons in Hwf. apply NoDup_cons in Hwf as [Hk Hwf].
    cbn [first_refused] in Hok. cbn [foldl fst snd].
    destruct (encode x) as [e|] eqn:Hx; [|done].
    apply elem_of_cons in Hin as [Heq|Hin].
    + injection Heq as -> ->.
      fold (hset_fields mapping (<[k:=e]> h)).
      rewrite hset_fields_other by done. by rewrite lookup_insert_eq, Hx.
    + by apply IH.
Qed.

Lemma set_presence_ok s u data r r' :
  set_presence s u data r = (Ok (), r') →
  first_refused data = None ∧
  get_presence s u r' = hset_fields data (get_presence s u r) ∧
  ttl r' !! presence_key s u = Some 300.
Proof.
  unfold set_presence, hset, get_presence, hgetall.
  destruct data as [|item data]; [done|].
  destruct (first_refused (item :: data)) as [bad|]; [done|].
  intros [= <-]. split; [done|].
  unfold expire, key_exists. cbn [hashes].
  rewrite bool_decide_eq_true_2 by (rewrite lookup_insert_eq; by eexists).
  cbn [orb hashes ttl]. by rewrite !lookup_insert_eq.
Qed.

(** C8 (as amended). Of two presence upserts for the same (session,
    user) that both succeed, the later one overwrites the fields it
    includes and leaves every other field of the stored record as it
    was: a field written by the earlier upsert and not included in the
    later one is still there, with the earlier value. The later upsert
    sets the time-to-live of the record to 300 seconds again. *)
Theorem set_presence_merges_fields s u d1 d2 r r1 r2 :
  set_presence s u d1 r = (Ok (), r1) →
  set_presence s u d2 r1 = (Ok (), r2) →
  (∀ f v, PyDict.wf d2 → (f, v) ∈ d2 → get_presence s u r2 !! f = encode v) ∧
  (∀ f, f ∉ PyDict.keys d2 → get_presence s u r2 !! f = get_presence s u r1 !! f) ∧
  (∀ f v, PyDict.wf d1 → (f, v) ∈ d1 → f ∉ PyDict.keys d2 →
     get_presence s u r2 !! f = encode v ∧ is_Some (encode v)) ∧
  ttl r2 !! presence_key s u = Some 300.
Proof.
  intros H1 H2.
  apply set_presence_ok in H1 as (Hok1 & Hget1 & _).
  apply set_presence_ok in H2 as (Hok2 & Hget2 & Httl).
  split; [|split; [|split; [|exact Httl]]].
  - intros f v Hwf Hin. rewrite Hget2. by apply hset_fields_written.
  - intros f Hf. rewrite Hget2. by apply hset_fields_other.
  - intros f v Hwf Hin Hf. rewrite Hget2, hset_fields_other, Hget1 by done.
    rewrite (hset_fields_written d1 _ f v) by done. split; [done|].
    clear -Hok1 Hin. induction d1 as [|[k x] d1 IH]; [by apply elem_of_nil in Hin|].
    cbn [first_refused] in Hok1. destruct (encode x) as [e|] eqn:Hx; [|done].
    apply elem_of_cons in Hin as [Heq|Hin]; [|by apply IH].
    injection Heq as -> ->. rewrite Hx. by eexists.
Qed.

Definition first_upsert : list (string * json) :=
  [("status", JStr "active"); ("name", JStr "Ana")].

Definition second_upsert : list (string * json) :=
  [("status", JStr "idle")].

Lemma set_presence_merges_witness :
  let r1 := (set_presence "s" "A" first_upsert empty_redis).2 in
  let r2 := (set_presence "s" "A" second_upsert r1).2 in
  set_presence "s" "A" first_upsert empty_redis = (Ok (), r1) ∧
  set_presence "s" "A" second_upsert r1 = (Ok (), r2) ∧
  get_presence "s" "A" r2 !! "status" = Some "idle" ∧
  get_presence "s" "A" r2 !! "name" = Some "Ana".
Proof.
  split; [reflexivity|]. split; [reflexivity|].
  destruct (set_presence_merges_fields "s" "A" first_upsert second_upsert empty_redis
              _ _ eq_refl eq_refl) as (Hnew & _ & Hold & _).
  split.
  - apply (Hnew "status" (JStr "idle")).
    + apply (bool_decide_unpack _). vm_compute. exact I.
    + by left.
  - apply (Hold "name" (JStr "Ana")).
    + apply (bool_decide_unpack _). vm_compute. exact I.
    + right. by left.
    + intros H. apply list_elem_of_singleton in H. discriminate H.
Defined.

(** C8 as stated fails: the second upsert does not include "name", and
    "name" is still in the stored record after it. *)
Lemma stale_presence_field_survives :
  let r1 := (set_presence "s" "A" first_upsert empty_redis).2 in
  let r2 := (set_presence "s" "A" second_upsert r1).2 in
  ("name" ∉ PyDict.keys second_upsert) ∧
  get_presence "s" "A" r2 !! "name" = Some "Ana".
Proof.
  split; [|reflexivity].
  intros H. apply list_elem_of_singleton in H. discriminate H.
Qed.

End RedisSpec.

(** ** The session endpoints over time *)

Module SessionsInvariants.
Import Py Sessions SessionsSpec SessionsLeave.









Lemma leave_session_tables sid u now db :
  codesign_sessions (leave_session sid u now db).2 = codesign_sessions db ∧
  phase_transitions (leave_session sid u now db).2 = phase_transitions db.
Proof.
  unfold leave_session. destruct (rows_of _ _ _) as [|p [|q rows]]; done.
Qed.




(** *** Timestamps *)

Definition stamped (db : Database) : Prop :=
  ∀ sid s, codesign_sessions db !! sid = Some s →
    (is_Some (completed_at s) ↔ current_phase s = COMPLETE) ∧
    (is_Some (started_at s) → current_phase s ≠ SETUP).

Lemma stamped_insert db sid s' :
  stamped db →
  ((is_Some (completed_at s') ↔ current_phase s' = COMPLETE) ∧
   (is_Some (started_at s') → current_phase s' ≠ SETUP)) →
  stamped (mkDb (<[sid := s']> (codesign_sessions db)) (session_participants db)
                (phase_transitions db)) .
Proof.
  intros Hst Hs' sid0 s0. simpl.
  destruct (decide (sid = sid0)) as [<-|Hne].
  - rewrite lookup_insert_eq. by intros [= <-].
  - rewrite lookup_insert_ne by done. apply Hst.
Qed.

Lemma stamped_tables db db' :
  codesign_sessions db' = codesign_sessions db → stamped db → stamped db'.
Proof. intros Heq Hst sid s. rewrite Heq. apply Hst. Qed.

Lemma stamped_serve r u now db : stamped db → stamped (serve r u now db).
Proof.
  intros Hst. destruct r as [new_id name|sid|sid|sid role]; simpl.
  - unfold create_session.
    destruct (codesign_sessions db !! new_id) eqn:Hnew; [done|]. simpl.
    eapply stamped_tables; [|apply (stamped_insert db new_id); [exact Hst|]]; [done|].
    simpl. split; [split; [by intros [? ?] | done] | by intros [? ?]].
  - destruct (codesign_sessions db !! sid) as [s|] eqn:Hs.
    + destruct (decide (current_phase s = SETUP)) as [Hp|Hp].
      * rewrite (start_session_ok _ _ _ _ _ Hs Hp). simpl.
        eapply stamped_tables; [|apply (stamped_insert db sid); [exact Hst|]]; [done|].
        destruct (Hst sid s Hs) as [Hc _]. simpl. split; [|done].
        rewrite Hc, Hp. split; done.
      * by rewrite (start_session_refused _ _ _ _ _ Hs Hp).
    + unfold start_session. by rewrite Hs.
  - destruct (codesign_sessions db !! sid) as [s|] eqn:Hs.
    + destruct (next_in_order (current_phase s)) as [q|] eqn:Hq.
      * rewrite (advance_phase_ok _ _ _ _ _ _ Hs Hq). simpl.
        eapply stamped_tables; [|apply (stamped_insert db sid); [exact Hst|]]; [done|].
        destruct (Hst sid s Hs) as [Hc _]. rewrite current_phase_advanced.
        split.
        -- unfold advanced. case_decide as Hqc; simpl.
           ++ split; [done | by eexists].
           ++ rewrite Hc. split; [|done]. intros Hp. rewrite Hp in Hq. done.
        -- intros _ ->. by destruct (current_phase s).
      * rewrite (advance_phase_complete _ _ _ _ _ Hs); [done|].
        by destruct (current_phase s).
    + unfold advance_phase. by rewrite Hs.
  - unfold join_session.
    destruct (codesign_sessions db !! sid); [|done].
    by destruct (existsb _ _).
Qed.

Lemma reachable_any_stamped db : reachable_any db → stamped db.
Proof.
  induction 1 as [|r u now db _ IH].
  - intros sid s Hs. simpl in Hs. by rewrite lookup_empty in Hs.
  - destruct r as [r|sid]; simpl; [by apply stamped_serve|].
    eapply stamped_tables; [|exact IH]. apply leave_session_tables.
Qed.

(** X2. In every reachable database [completed_at] is set exactly on the
    sessions whose phase is complete, and a session with [started_at] set
    has left setup. *)
Theorem completed_at_marks_complete db sid s :
  reachable_any db →
  codesign_sessions db !! sid = Some s →
  (is_Some (completed_at s) ↔ current_phase s = COMPLETE) ∧
  (is_Some (started_at s) → current_phase s ≠ SETUP).
Proof. intros Hr Hs. by apply (reachable_any_stamped db Hr sid s). Qed.

(** *** Participants *)














(** A session created by user 7 and started by them. *)
Definition started_db : Database :=
  serve_any (Writes (ReqStart 1)) demo_user 4 demo_db.

Lemma reachable_any_started_db : reachable_any started_db.
Proof.
  apply (reachable_any_serve (Writes (ReqStart 1)) demo_user 4 demo_db).
  apply (reachable_any_serve (Writes (ReqCreate 1 "demo")) demo_user 0 empty_db).
  apply reachable_any_empty.
Qed.


Lemma completed_at_marks_complete_witness :
  reachable_any started_db ∧
  ∃ s, codesign_sessions started_db !! 1%N = Some s ∧
       (is_Some (completed_at s) ↔ current_phase s = COMPLETE) ∧
       (is_Some (started_at s) → current_phase s ≠ SETUP).
Proof.
  split; [exact reachable_any_started_db|].
  eexists. split; [reflexivity|].
  apply (completed_at_marks_complete started_db 1 _ reachable_any_started_db eq_refl).
Defined.



End SessionsInvariants.

(** ** The Redis client: participants, typing, presence *)

Module RedisFacts.
Import Py Redis.

Lemma smembers_sadd name member r :
  smembers name (sadd name member r) = {[member]} ∪ smembers name r.
Proof. unfold smembers at 1, sadd. simpl. by rewrite lookup_insert_eq. Qed.

Lemma smembers_srem name member r :
  smembers name (srem name member r) = smembers name r ∖ {[member]}.
Proof.
  unfold smembers, srem. destruct (sets r !! name) as [s|] eqn:Hs; simpl.
  - case_decide as He; simpl.
    + rewrite lookup_delete_eq. simpl. by rewrite He.
    + by rewrite lookup_insert_eq.
  - rewrite Hs. simpl. set_solver.
Qed.

(** X5. The participant set kept in Redis: after [add_participant] the
    members are the user and the earlier members; after
    [remove_participant] they are the earlier members without the user;
    adding a user twice is adding them once; and when nobody else is in
    the set, adding and removing a user leaves no key behind. *)
Theorem participants_add_remove session_id user_id r :
  get_participants session_id (add_participant session_id user_id r)
    = {[user_id]} ∪ get_participants session_id r ∧
  get_participants session_id (remove_participant session_id user_id r)
    = get_participants session_id r ∖ {[user_id]} ∧
  get_participants session_id
      (remove_participant session_id user_id (add_participant session_id user_id r))
    = get_participants session_id r ∖ {[user_id]} ∧
  add_participant session_id user_id (add_participant session_id user_id r)
    = add_participant session_id user_id r ∧
  (get_participants session_id r ⊆ {[user_id]} →
     sets (remove_participant session_id user_id (add_participant session_id user_id r))
       !! participants_key session_id = None).
Proof.
  unfold get_participants, add_participant, remove_participant.
  split; [apply smembers_sadd|]. split; [apply smembers_srem|].
  split; [rewrite smembers_srem, smembers_sadd; set_solver|].
  split.
  - unfold sadd. simpl. rewrite insert_insert_eq. f_equal. f_equal.
    unfold smembers at 1. simpl. rewrite lookup_insert_eq. simpl. set_solver.
  - intros Hsub. unfold srem, sadd. simpl. rewrite lookup_insert_eq.
    rewrite decide_True by set_solver. simpl. by rewrite lookup_delete_eq.
Qed.

Lemma key_exists_sadd name member r : key_exists name (sadd name member r) = true.
Proof.
  unfold key_exists, sadd. simpl. apply orb_true_iff. right.
  apply bool_decide_eq_true. rewrite lookup_insert_eq. by eexists.
Qed.

Lemma get_typing_users_set_typing s u r :
  get_typing_users s (set_typing s u r) = {[u]} ∪ get_typing_users s r.
Proof.
  unfold get_typing_users, set_typing, expire. rewrite key_exists_sadd.
  apply (smembers_sadd (typing_key s) u r).
Qed.

Lemma get_typing_users_clear_typing s u r :
  get_typing_users s (clear_typing s u r) = get_typing_users s r ∖ {[u]}.
Proof. apply smembers_srem. Qed.

(** X6. [set_typing] puts the user among the typing users of the session
    and a time-to-live of five seconds on the key; [clear_typing] after it
    removes the user again and keeps the others; when nobody else was
    typing, the key and its time-to-live are gone. *)
Theorem typing_set_then_clear session_id user_id r :
  let r1 := set_typing session_id user_id r in
  let r2 := clear_typing session_id user_id r1 in
  get_typing_users session_id r1 = {[user_id]} ∪ get_typing_users session_id r ∧
  ttl r1 !! typing_key session_id = Some 5 ∧
  get_typing_users session_id r2 = get_typing_users session_id r ∖ {[user_id]} ∧
  (get_typing_users session_id r ⊆ {[user_id]} →
     sets r2 !! typing_key session_id = None ∧ ttl r2 !! typing_key session_id = None).
Proof.
  intros r1 r2. subst r1 r2.
  split; [apply get_typing_users_set_typing|].
  split.
  { unfold set_typing, expire. rewrite key_exists_sadd. simpl. by rewrite lookup_insert_eq. }
  split.
  { rewrite get_typing_users_clear_typing, get_typing_users_set_typing. set_solver. }
  intros Hsub. unfold get_typing_users in Hsub.
  unfold clear_typing, set_typing, expire. rewrite key_exists_sadd.
  unfold srem, sadd. simpl. rewrite lookup_insert_eq.
  rewrite decide_True by set_solver. simpl. by rewrite !lookup_delete_eq.
Qed.

Lemma presence_key_inj session_id u v :
  presence_key session_id u = presence_key session_id v → u = v.
Proof.
  unfold presence_key. intros H.
  apply (inj (String.app "session:")) in H.
  apply (inj (String.app session_id)) in H.
  by apply (inj (String.app ":presence:")) in H.
Qed.

(** X7. [set_presence] for a user of a session, whatever the data and
    whether it is accepted or refused, changes neither the presence hash
    nor the time-to-live of another user of the same session. *)
Theorem presence_of_other_users_untouched session_id u v data r :
  u ≠ v →
  let r' := (set_presence session_id u data r).2 in
  get_presence session_id v r' = get_presence session_id v r ∧
  ttl r' !! presence_key session_id v = ttl r !! presence_key session_id v.
Proof.
  intros Hne r'. subst r'.
  assert (Hk : presence_key session_id u ≠ presence_key session_id v).
  { intros H. by apply presence_key_inj in H. }
  unfold set_presence, hset, get_presence, hgetall.
  destruct data as [|item data]; [done|].
  destruct (first_refused (item :: data)); [done|]. cbn [snd].
  unfold expire. destruct (key_exists _ _); simpl; by rewrite ?lookup_insert_ne.
Qed.

Lemma presence_of_other_users_untouched_witness :
  let r := (set_presence "s" "B" [("status", JStr "away")] empty_redis).2 in
  let r' := (set_presence "s" "A" [("status", JStr "active")] r).2 in
  "A" ≠ "B" ∧
  get_presence "s" "B" r' = get_presence "s" "B" r ∧
  ttl r' !! presence_key "s" "B" = ttl r !! presence_key "s" "B".
Proof.
  intros r r'. assert (Hne : "A" ≠ "B") by discriminate.
  split; [exact Hne|].
  apply (presence_of_other_users_untouched "s" "A" "B" [("status", JStr "active")] r Hne).
Defined.

End RedisFacts.

(** ** The handlers of the frames *)

Module HandlerProtocol.
Import Py Handler HandlerSpec ManagerSpec DispatchSpec.

Definition pong (timestamp : string) : json :=
  JObj [("type", JStr "pong"); ("payload", JObj [("timestamp", JStr timestamp)])].

(** X8. [_handle_ping] never raises and reads the clock once. It sends one
    [pong] carrying that time on the channel the connection map holds for
    the sender, and nothing to anybody else; when the map holds no channel
    for the sender it sends nothing. *)
Theorem ping_is_answered_privately ws s u info payload w :
  ∃ evs out,
    _handle_ping ws s u info payload w = (Ok (), with_io evs out (tick w)) ∧
    match PyDict.get u (channels s w) with
    | Some c => ∃ err, evs = [Sent c (pong (utcnow_isoformat (env w) (clock_reads w))) err]
    | None => evs = []
    end.
Proof.
  unfold _handle_ping. run_step run_utcnow.
  destruct (send_to_user_spec s u (pong (utcnow_isoformat (env w) (clock_reads w))) (tick w))
    as (evs & out & Hrun & Hevs).
  exists evs, out. split; [exact Hrun | exact Hevs].
Qed.

(** X9. Whatever the frame, and whether or not its handler raises,
    [handle_message] leaves the connection maps and the participant sets
    as they were, and what it adds to the socket log are calls of
    [send_text] only: it accepts and closes no channel. *)
Theorem frames_never_change_the_registry ws s u info data w :
  let w' := (handle_message ws s u info data w).2 in
  active_connections w' = active_connections w ∧
  session_participants w' = session_participants w ∧
  ∃ evs, sockets w' = (sockets w ++ evs)%list ∧
         Forall is_sent evs ∧ closings evs = [].
Proof.
  destruct (handle_message_talks ws s u info data w) as (Ha & Hp & _ & evs & Hs & Hall).
  split; [exact Ha|]. split; [exact Hp|].
  exists evs. split; [exact Hs|]. split; [exact Hall | by apply closings_sent].
Qed.

Definition typing_start (user_id : string) (info : list (string * json)) : json :=
  JObj [("type", JStr "typing_start");
        ("payload", JObj [("user_id", JStr user_id);
                          ("name", dict_get info "name" JNull)])].

Definition typing_stop (user_id : string) : json :=
  JObj [("type", JStr "typing_stop"); ("payload", JObj [("user_id", JStr user_id)])].

Lemma run_redis_do f w : redis_do f w = (Ok (), set_redis (f (redis w)) w).
Proof. reflexivity. Qed.

(** X10. [_handle_typing_start] never raises: it records the sender as
    typing in Redis and sends [typing_start], with the sender's id and
    name, once to every attached user but the sender. [_handle_typing_stop]
    after it removes the sender from the typing users and sends
    [typing_stop] to the same users. *)
Theorem typing_start_then_stop ws s u info payload payload' w :
  ∃ evs out evs' out' w1 w2,
    _handle_typing_start ws s u info payload w = (Ok (), w1) ∧
    w1 = with_io evs out (set_redis (Redis.set_typing s u (redis w)) w) ∧
    sent_to_each (typing_start u info) (recipients (channels s w) (Some u)) evs ∧
    u ∈ Redis.get_typing_users s (redis w1) ∧
    _handle_typing_stop ws s u info payload' w1 = (Ok (), w2) ∧
    w2 = with_io evs' out' (set_redis (Redis.clear_typing s u (redis w1)) w1) ∧
    sent_to_each (typing_stop u) (recipients (channels s w) (Some u)) evs' ∧
    u ∉ Redis.get_typing_users s (redis w2).
Proof.
  unfold _handle_typing_start, _handle_typing_stop.
  destruct (broadcast_to_session_spec s (typing_start u info) (Some u)
              (set_redis (Redis.set_typing s u (redis w)) w))
    as (evs & out & Hrun & Hsent).
  set (w1 := with_io evs out (set_redis (Redis.set_typing s u (redis w)) w)).
  destruct (broadcast_to_session_spec s (typing_stop u) (Some u)
              (set_redis (Redis.clear_typing s u (redis w1)) w1))
    as (evs' & out' & Hrun' & Hsent').
  exists evs, out, evs', out', w1,
    (with_io evs' out' (set_redis (Redis.clear_typing s u (redis w1)) w1)).
  split; [rewrite run_bind, run_redis_do; cbv beta iota; exact Hrun|].
  split; [done|]. split; [exact Hsent|].
  split.
  { change (redis w1) with (Redis.set_typing s u (redis w)).
    rewrite RedisFacts.get_typing_users_set_typing. set_solver. }
  split; [rewrite run_bind, run_redis_do; cbv beta iota; exact Hrun'|].
  split; [done|]. split; [exact Hsent'|].
  change (redis (with_io evs' out' (set_redis (Redis.clear_typing s u (redis w1)) w1)))
    with (Redis.clear_typing s u (Redis.set_typing s u (redis w))).
  rewrite RedisFacts.get_typing_users_clear_typing. set_solver.
Qed.




Definition ai_processing : json :=
  JObj [("type", JStr "ai_processing"); ("payload", JObj [("status", JStr "thinking")])].

Definition ai_response (r : AIMessageResponse) (user_id timestamp : string) : json :=
  JObj [("type", JStr "ai_response");
        ("payload", JObj [("response", response r);
                          ("suggestions", suggestions r);
                          ("tools_used", tools_used r);
                          ("tts_audio_url", tts_audio_url r);
                          ("emotion", emotion_detected r);
                          ("in_reply_to", JStr user_id);
                          ("timestamp", JStr timestamp)])].

Lemma run_agent s a b c d e w :
  agent_process_message s a b c d e w =
    (match process_message (env w) s a b c d e with
     | Ok r => Ok r
     | Raise x => Raise x
     end, w).
Proof. unfold agent_process_message. by destruct (process_message _ _ _ _ _ _ _). Qed.

(** X13. [_handle_ai_message], its payload an object. When [message] is
    missing or empty it returns at once and changes nothing. Otherwise it
    first sends [ai_processing] to every attached user, the sender
    included, and then asks the agent, with the role defaulting to
    "designer" and the phase to "shared_framing". If the agent raises,
    the exception is raised with [ai_processing] already sent; if it
    answers, one [ai_response] with the agent's fields, [in_reply_to] the
    sender and the server's time is sent to every attached user. *)
Theorem ai_message_protocol ws s u info p w :
  let message := dict_get p "message" (JStr "") in
  let answer :=
    process_message (env w) s message (dict_get info "role" (JStr "designer"))
      (dict_get p "current_phase" (JStr "shared_framing"))
      (dict_get p "context" JNull) (dict_get p "request_tts" (JBool true)) in
  if truthy message then
    ∃ evs out,
      sent_to_each ai_processing (channels s w) evs ∧
      match answer with
      | Raise e =>
          _handle_ai_message ws s u info (JObj p) w = (Raise e, with_io evs out w)
      | Ok r =>
          ∃ evs' out',
            _handle_ai_message ws s u info (JObj p) w
              = (Ok (), with_io evs' out' (tick (with_io evs out w))) ∧
            sent_to_each
              (ai_response r u (utcnow_isoformat (env w) (clock_reads w)))
              (channels s w) evs'
      end
  else _handle_ai_message ws s u info (JObj p) w = (Ok (), w).
Proof.
  intros message answer. unfold _handle_ai_message.
  run_step run_py_get. run_step run_py_get. run_step run_py_get.
  fold message. destruct (truthy message) eqn:Hm; cbn [negb]; [|done].
  destruct (broadcast_to_session_spec s ai_processing None w) as (evs & out & Hrun & Hsent).
  rewrite recipients_None in Hsent. fold (channels s w) in Hsent.
  exists evs, out. split; [exact Hsent|].
  rewrite run_bind. unfold ai_processing in Hrun. rewrite Hrun. cbv beta iota.
  run_step run_py_get. rewrite run_bind, run_agent. cbn [env with_io].
  fold answer. destruct answer as [r|e]; [|done].
  run_step run_utcnow.
  destruct (broadcast_to_session_spec s
              (ai_response r u (utcnow_isoformat (env w) (clock_reads w))) None
              (tick (with_io evs out w))) as (evs' & out' & Hrun' & Hsent').
  rewrite recipients_None in Hsent'.
  exists evs', out'. split; [exact Hrun' | exact Hsent'].
Qed.

Definition voice_transcript (user_id : string) (info : list (string * json))
    (result : list (string * json)) : json :=
  JObj [("type", JStr "voice_transcript");
        ("payload", JObj [("user_id", JStr user_id);
                          ("name", dict_get info "name" JNull);
                          ("transcript", dict_get result "transcript" (JStr ""));
                          ("confidence", dict_get result "confidence" (JNum 0))])].

(** X14. [_handle_voice_input], its payload an object. Without audio it
    returns at once and changes nothing; when decoding the audio raises,
    the exception is raised and nothing has been sent; when the
    transcript is empty nothing is sent. Otherwise [voice_transcript] is
    sent to every attached user, the sender included, and the transcript
    is then handed to [_handle_ai_message] unless [forward_to_ai] is
    falsy. *)
Theorem voice_input_cases ws s u info p w :
  let audio := dict_get p "audio" JNull in
  (truthy audio = false →
     _handle_voice_input ws s u info (JObj p) w = (Ok (), w)) ∧
  (∀ a e, audio = JStr a → truthy audio = true → b64decode (env w) a = Raise e →
     _handle_voice_input ws s u info (JObj p) w = (Raise e, w)) ∧
  (∀ a bytes result,
     audio = JStr a → truthy audio = true →
     b64decode (env w) a = Ok bytes →
     transcribe_bytes (env w) bytes = Ok result →
     let transcript := dict_get result "transcript" (JStr "") in
     (truthy transcript = false →
        _handle_voice_input ws s u info (JObj p) w = (Ok (), w)) ∧
     (truthy transcript = true →
        ∃ evs out,
          sent_to_each (voice_transcript u info result) (channels s w) evs ∧
          _handle_voice_input ws s u info (JObj p) w
            = (if truthy (dict_get p "forward_to_ai" (JBool true))
               then _handle_ai_message ws s u info
                      (JObj [("message", transcript);
                             ("request_tts", dict_get p "request_tts" (JBool true))])
               else mret ()) (with_io evs out w))).
Proof.
  intros audio. unfold _handle_voice_input.
  run_step run_py_get. run_step run_py_get. fold audio.
  split; [intros Ha; by rewrite Ha|].
  split.
  - intros a e Haudio Ht Hdec. rewrite Ht. cbn [negb].
    rewrite run_bind. unfold decode_audio. rewrite Haudio, Hdec. done.
  - intros a bytes result Haudio Ht Hdec Hstt. rewrite Ht. cbn [negb].
    rewrite !run_bind. unfold decode_audio. rewrite Haudio, Hdec. cbv beta iota.
    rewrite !run_bind. unfold stt_transcribe_bytes. rewrite Hstt. cbv beta iota zeta.
    split; intros Htr; rewrite Htr; [done|].
    destruct (broadcast_to_session_spec s (voice_transcript u info result) None w)
      as (evs & out & Hrun & Hsent).
    rewrite recipients_None in Hsent. fold (channels s w) in Hsent.
    exists evs, out. split; [exact Hsent|].
    rewrite run_bind. unfold voice_transcript in Hrun.
    rewrite Hrun. cbv beta iota.
    run_step run_py_get. reflexivity.
Qed.

Lemma voice_input_cases_witness :
  let p := [("audio", JStr "halo"); ("forward_to_ai", JBool false)] in
  let w := Samples.one_user in
  let result := [("transcript", JStr "halo")] in
  b64decode (env w) "halo" = Ok "halo" ∧
  transcribe_bytes (env w) "halo" = Ok result ∧
  ∃ evs out,
    sent_to_each (voice_transcript "A" (Samples.info_of "A") result) (channels "s" w) evs ∧
    _handle_voice_input 1 "s" "A" (Samples.info_of "A") (JObj p) w
      = (Ok (), with_io evs out w).
Proof.
  intros p w result.
  split; [reflexivity|]. split; [reflexivity|].
  destruct (voice_input_cases 1 "s" "A" (Samples.info_of "A") p w) as (_ & _ & H).
  destruct (H "halo" "halo" result eq_refl eq_refl eq_refl eq_refl) as [_ Hsaid].
  destruct (Hsaid eq_refl) as (evs & out & Hsent & Hrun).
  exists evs, out. split; [exact Hsent | exact Hrun].
Defined.

End HandlerProtocol.

(** ** The registry over time *)

Module ManagerInvariants.
Import Py Handler HandlerSpec ManagerSpec DispatchSpec HandlerProtocol.

(** *** The participant sets mirror the connection maps *)

(** No connection map is empty or has a user twice, and the participant
    set of a session is the set of the users in its map. *)
Definition mirrored (w : World) : Prop :=
  ∀ s,
    match active_connections w !! s with
    | Some d =>
        d ≠ [] ∧ PyDict.wf d ∧
        session_participants w !! s = Some (list_to_set (PyDict.keys d))
    | None => session_participants w !! s = None
    end.

Lemma mirrored_consistent w : mirrored w → consistent w.
Proof.
  intros Hm s [d Hd]. specialize (Hm s). rewrite Hd in Hm.
  destruct Hm as (_ & _ & ->). by eexists.
Qed.

Lemma mirrored_talks w w' : talks w w' → mirrored w → mirrored w'.
Proof. intros (Ha & Hp & _) Hm s. rewrite Ha, Hp. apply Hm. Qed.

Lemma set_nonempty (d : list (string * nat)) u ws : PyDict.set u ws d ≠ [].
Proof. destruct d as [|[k v] d]; simpl; [done|]. by destruct (String.eqb u k). Qed.

Lemma keys_set_to_set (d : list (string * nat)) u ws :
  list_to_set (PyDict.keys (PyDict.set u ws d)) =@{gset string}
    {[u]} ∪ list_to_set (PyDict.keys d).
Proof.
  destruct (decide (u ∈ PyDict.keys d)) as [Hin|Hnin].
  - rewrite PyDictFacts.keys_set_in by done.
    apply set_eq. intros x. rewrite elem_of_union, elem_of_singleton, !elem_of_list_to_set.
    split; [by right|]. intros [->|?]; done.
  - rewrite PyDictFacts.keys_set_notin by done.
    rewrite list_to_set_app_L. simpl.
    apply set_eq. intros x.
    rewrite !elem_of_union, elem_of_singleton, !elem_of_list_to_set, elem_of_empty. tauto.
Qed.

Lemma mirrored_registered ws s u w : mirrored w → mirrored (registered ws s u w).
Proof.
  intros Hm s'. unfold registered, members_before, channels. simpl.
  destruct (decide (s = s')) as [<-|Hne].
  - rewrite !lookup_insert_eq. split; [apply set_nonempty|].
    specialize (Hm s). destruct (active_connections w !! s) as [d|] eqn:Hd; simpl.
    + destruct Hm as (_ & Hwf & ->). split; [by apply PyDictFacts.wf_set|].
      simpl. by rewrite keys_set_to_set.
    + split; [apply NoDup_singleton|]. simpl. f_equal;
        try (apply set_eq; intros x;
             rewrite !elem_of_union, elem_of_singleton, !elem_of_empty; tauto).
  - rewrite !lookup_insert_ne by done. apply Hm.
Qed.

Lemma keys_pop_to_set (d : list (string * nat)) u :
  PyDict.wf d →
  list_to_set (PyDict.keys (PyDict.pop u d)) =@{gset string}
    list_to_set (PyDict.keys d) ∖ {[u]}.
Proof.
  intros Hwf. rewrite PyDictFacts.keys_pop by done.
  apply set_eq. intros x.
  rewrite elem_of_difference, elem_of_singleton, !elem_of_list_to_set, list_elem_of_filter.
  tauto.
Qed.

Lemma mirrored_forgotten s u w : mirrored w → mirrored (forgotten s u w).
Proof.
  intros Hm s'. unfold forgotten.
  pose proof (Hm s) as Hs.
  destruct (active_connections w !! s) as [d|] eqn:Hd; [|apply Hm].
  destruct Hs as (_ & Hwf & Hp).
  pose proof (PyDictFacts.wf_pop u d Hwf) as Hwf'.
  pose proof (keys_pop_to_set d u Hwf) as Hkeys.
  destruct (PyDict.pop u d) as [|item rest] eqn:E;
    cbn [active_connections session_participants
         set_session_participants set_active_connections].
  - destruct (decide (s = s')) as [<-|Hne].
    + by rewrite !lookup_delete_eq.
    + rewrite !lookup_delete_ne by done. apply Hm.
  - destruct (decide (s = s')) as [<-|Hne].
    + rewrite !lookup_insert_eq. split; [done|]. split; [done|].
      by rewrite Hkeys, Hp.
    + rewrite !lookup_insert_ne by done. apply Hm.
Qed.

Lemma manager_step_mirrored w w' : manager_step w w' → mirrored w → mirrored w'.
Proof.
  intros Hstep Hm. pose proof (mirrored_consistent w Hm) as Hc.
  destruct Hstep as [ws s u info w|s u w|ws s u info data w].
  - eapply mirrored_talks; [by apply connect_talks_after_registering|].
    by apply mirrored_registered.
  - destruct (disconnect_spec s u w Hc) as (evs & out & w2 & Hrun & Ha & Hp & _).
    rewrite Hrun. cbn [snd]. intros s'. rewrite Ha, Hp.
    by apply mirrored_forgotten.
  - eapply mirrored_talks; [apply handle_message_talks | done].
Qed.

Lemma manager_reachable_mirrored w : manager_reachable w → mirrored w.
Proof.
  induction 1 as [w Ha Hp|w w' _ IH Hstep].
  - intros s'. rewrite Ha, Hp. by rewrite !lookup_empty.
  - by eapply manager_step_mirrored.
Qed.

(** X15. In every world the manager can reach from no sessions (by
    connects, disconnects and frames) the participant set of a session is
    exactly the set of users in its connection map, no user is in the map
    twice, no session has an empty map, and a session has a map exactly
    when it has a participant set. *)
Theorem participants_mirror_connections w s :
  manager_reachable w →
  get_session_users s w = list_to_set (PyDict.keys (channels s w)) ∧
  PyDict.wf (channels s w) ∧
  active_connections w !! s ≠ Some [] ∧
  (active_connections w !! s = None ↔ session_participants w !! s = None).
Proof.
  intros Hr. pose proof (manager_reachable_mirrored w Hr) as Hm.
  specialize (Hm s). unfold get_session_users, channels.
  destruct (active_connections w !! s) as [d|] eqn:Hd; simpl.
  - destruct Hm as (Hne & Hwf & ->). simpl.
    split; [done|]. split; [done|]. split; [by intros [= ->]|]. split; done.
  - rewrite Hm. simpl. split; [done|]. split; [apply NoDup_nil_2|]. split; done.
Qed.

Lemma manager_reachable_one_user : manager_reachable Samples.one_user.
Proof.
  eapply reachable_step; [|apply (step_connect 1 "s" "A" (Samples.info_of "A"))].
  by apply reachable_start.
Qed.

Lemma participants_mirror_connections_witness :
  let w := Samples.one_user in
  manager_reachable w ∧
  get_session_users "s" w = list_to_set (PyDict.keys (channels "s" w)) ∧
  PyDict.wf (channels "s" w) ∧
  active_connections w !! "s" ≠ Some [].
Proof.
  intros w. pose proof manager_reachable_one_user as Hr.
  split; [exact Hr|].
  destruct (participants_mirror_connections w "s" Hr) as (H1 & H2 & H3 & _).
  auto.
Defined.

(** *** What connect announces *)







(** *** presence_update *)






(** *** Detaching by user *)

Lemma pop_absent (d : list (string * nat)) u :
  PyDict.get u d = None → PyDict.pop u d = d.
Proof.
  induction d as [|[k v] d IH]; simpl; [done|].
  destruct (String.eqb u k); [done|]. intros H. by rewrite IH.
Qed.

(** X18. [disconnect] for a user who has no channel in the session's map
    returns normally and leaves the connection maps and the participant
    sets as they were, and it still sends [user_left] for that user to
    every user attached to the session. *)
Theorem disconnect_of_an_absent_user s u w :
  manager_reachable w →
  PyDict.get u (channels s w) = None →
  ∃ evs w',
    disconnect s u w = (Ok (), w') ∧
    active_connections w' = active_connections w ∧
    session_participants w' = session_participants w ∧
    sockets w' = (sockets w ++ evs)%list ∧
    sent_to_each (user_left u (utcnow_isoformat (env w) (clock_reads w)))
                 (channels s w) evs.
Proof.
  intros Hr Hu. pose proof (manager_reachable_mirrored w Hr) as Hm.
  pose proof (mirrored_consistent w Hm) as Hc.
  destruct (disconnect_spec s u w Hc) as (evs & out & w' & Hrun & Ha & Hp & _ & Hs & _ & Hsent).
  rewrite (pop_absent _ _ Hu) in Hsent.
  exists evs, w'. split; [exact Hrun|].
  assert (Hsame : active_connections (forgotten s u w) = active_connections w ∧
                  session_participants (forgotten s u w) = session_participants w).
  { unfold forgotten. specialize (Hm s). unfold channels in Hu.
    destruct (active_connections w !! s) as [d|] eqn:Hd; [|done].
    destruct Hm as (Hne & Hwf & Hpart). simpl in Hu.
    rewrite (pop_absent _ _ Hu). destruct d as [|item d]; [done|]. simpl.
    split; [by apply insert_id|].
    rewrite Hpart. simpl. apply insert_id. rewrite Hpart. f_equal.
    apply set_eq. intros x. rewrite elem_of_difference, elem_of_singleton.
    split; [|tauto]. intros Hx. split; [done|]. intros ->.
    apply elem_of_list_to_set in Hx. by apply PyDictFacts.get_None_iff in Hu. }
  destruct Hsame as [Ha' Hp']. rewrite Ha' in Ha. rewrite Hp' in Hp. done.
Qed.

Lemma disconnect_of_an_absent_user_witness :
  let w := Samples.one_user in
  manager_reachable w ∧
  PyDict.get "B" (channels "s" w) = None ∧
  ∃ evs w',
    disconnect "s" "B" w = (Ok (), w') ∧
    active_connections w' = active_connections w ∧
    session_participants w' = session_participants w ∧
    sent_to_each (user_left "B" (utcnow_isoformat (env w) (clock_reads w)))
                 (channels "s" w) evs.
Proof.
  intros w. pose proof manager_reachable_one_user as Hr.
  assert (Hu : PyDict.get "B" (channels "s" w) = None) by reflexivity.
  split; [exact Hr|]. split; [exact Hu|].
  destruct (disconnect_of_an_absent_user "s" "B" w Hr Hu)
    as (evs & w' & H1 & H2 & H3 & _ & H5).
  exists evs, w'. auto.
Defined.

Lemma connect_sockets ws s u info w :
  consistent w →
  ∃ evs, sockets (connect ws s u info w).2 = (sockets w ++ Accepted ws :: evs)%list ∧
         Forall is_sent evs.
Proof.
  intros Hc.
  destruct (connect_talks_after_registering ws s u info w Hc) as (_ & _ & _ & evs & Hs & Hall).
  exists evs. split; [|done]. rewrite Hs. unfold registered. simpl. by rewrite <- app_assoc.
Qed.

Lemma sent_to_each_is_sent m items evs : sent_to_each m items evs → Forall is_sent evs.
Proof.
  induction 1 as [|item e items evs [err ->] _ IH]; constructor; [|done].
  by exists item.2, m, err.
Qed.

(** X19. Connections are kept by user, not by websocket: when a user is
    attached twice to a session and [disconnect] runs once, the user has
    no channel left in the session (the second, live websocket is dropped
    from the map with the first) and is no longer among its users, while
    no websocket has been closed. *)
Theorem one_disconnect_detaches_both_connections w ws1 ws2 s u info1 info2 :
  consistent w →
  PyDict.wf (channels s w) →
  let w2 := (connect ws2 s u info2 (connect ws1 s u info1 w).2).2 in
  let w3 := (disconnect s u w2).2 in
  PyDict.get u (channels s w2) = Some ws2 ∧
  PyDict.get u (channels s w3) = None ∧
  (u ∉ get_session_users s w3) ∧
  channels s w3 = PyDict.pop u (channels s w) ∧
  closings (drop (length (sockets w)) (sockets w3)) = [].
Proof.
  intros Hc Hwf w2 w3.
  set (w1 := (connect ws1 s u info1 w).2) in *.
  assert (Hc1 : consistent w1) by (by apply consistent_connect).
  assert (Hc2 : consistent w2) by (by apply consistent_connect).
  assert (Hch1 : channels s w1 = PyDict.set u ws1 (channels s w)).
  { unfold w1. rewrite (channels_talks s _ _ (connect_talks_after_registering _ _ _ _ _ Hc)).
    apply channels_registered. }
  assert (Hch2 : channels s w2 = PyDict.set u ws2 (channels s w1)).
  { unfold w2. rewrite (channels_talks s _ _ (connect_talks_after_registering _ _ _ _ _ Hc1)).
    apply channels_registered. }
  destruct (disconnect_spec s u w2 Hc2)
    as (evs3 & out & w3' & Hrun & Ha & Hp & _ & Hs3 & _ & Hsent).
  assert (Hw3 : w3 = w3') by (unfold w3; by rewrite Hrun). rewrite Hw3.
  assert (Hch3 : channels s w3' = PyDict.pop u (channels s w)).
  { unfold channels at 1. rewrite Ha. fold (channels s (forgotten s u w2)).
    by rewrite channels_forgotten, Hch2, Hch1, !PyDictFacts.pop_set. }
  split; [rewrite Hch2; apply PyDictFacts.get_set_eq|].
  split; [rewrite Hch3; by apply PyDictFacts.get_pop_eq|].
  split.
  { unfold get_session_users. rewrite Hp. apply get_session_users_forgotten.
    destruct (connect_talks_after_registering ws2 s u info2 w1 Hc1) as (Hreg & _).
    fold w2 in Hreg. rewrite Hreg. unfold registered. simpl.
    rewrite lookup_insert_eq. by eexists. }
  split; [exact Hch3|].
  destruct (connect_sockets ws1 s u info1 w Hc) as (evs1 & Hs1 & Hall1).
  destruct (connect_sockets ws2 s u info2 w1 Hc1) as (evs2 & Hs2 & Hall2).
  fold w1 in Hs1. fold w2 in Hs2. rewrite Hs3, Hs2, Hs1.
  rewrite <- !app_assoc, drop_app_length.
  rewrite !closings_app.
  change (closings (Accepted ws1 :: evs1)) with (closings evs1).
  change (closings (Accepted ws2 :: evs2)) with (closings evs2).
  rewrite !closings_sent; [done| |done|done].
  by eapply sent_to_each_is_sent.
Qed.

Lemma one_disconnect_detaches_both_connections_witness :
  let w := Samples.empty_world in
  let w2 := (connect 2 "s" "A" (Samples.info_of "A")
               (connect 1 "s" "A" (Samples.info_of "A") w).2).2 in
  let w3 := (disconnect "s" "A" w2).2 in
  consistent w ∧
  PyDict.wf (channels "s" w) ∧
  PyDict.get "A" (channels "s" w2) = Some 2 ∧
  PyDict.get "A" (channels "s" w3) = None ∧
  closings (drop (length (sockets w)) (sockets w3)) = [].
Proof.
  intros w w2 w3. pose proof consistent_empty_world as Hc.
  assert (Hwf : PyDict.wf (channels "s" w)) by apply NoDup_nil_2.
  split; [exact Hc|]. split; [exact Hwf|].
  destruct (one_disconnect_detaches_both_connections w 1 2 "s" "A"
              (Samples.info_of "A") (Samples.info_of "A") Hc Hwf)
    as (H1 & H2 & _ & _ & H5).
  auto.
Defined.

(** *** The endpoint *)

(** A computation that sends and changes nothing else of the socket log. *)
Definition only_sends (w w' : World) : Prop :=
  ∃ evs, sockets w' = (sockets w ++ evs)%list ∧ Forall is_sent evs.

Lemma only_sends_trans w1 w2 w3 : only_sends w1 w2 → only_sends w2 w3 → only_sends w1 w3.
Proof.
  intros (e1 & H1 & F1) (e2 & H2 & F2). exists (e1 ++ e2)%list.
  split; [by rewrite H2, H1, <- app_assoc | by apply Forall_app].
Qed.

Lemma talks_only_sends w w' : talks w w' → only_sends w w'.
Proof. by intros (_ & _ & _ & H). Qed.

Lemma disconnect_only_sends s u w :
  consistent w → only_sends w ((disconnect s u;; mret Returned) w).2.
Proof.
  intros Hc. destruct (disconnect_spec s u w Hc) as (evs & out & w' & Hrun & _ & _ & _ & Hs & _ & Hsent).
  rewrite run_bind, Hrun. exists evs. split; [exact Hs|].
  by eapply sent_to_each_is_sent.
Qed.

Lemma exit_only_sends s u e w :
  consistent w →
  only_sends w
    (match e with
     | WebSocketDisconnect => (disconnect s u;; mret Returned) w
     | _ => (print ("WebSocket error: " ++ exn_str e);; disconnect s u;; mret Returned) w
     end).2.
Proof.
  intros Hc.
  assert (Hp : ∀ line,
    only_sends w ((print line;; disconnect s u;; mret Returned) w).2).
  { intros line. rewrite run_bind. unfold print at 1, modify. cbv beta iota.
    match goal with
    | |- only_sends _ (_ ?w0).2 =>
        assert (Hw0 : consistent w0 ∧ sockets w0 = sockets w) by (split; [exact Hc | done]);
        destruct Hw0 as [Hc0 Hs0];
        destruct (disconnect_only_sends s u w0 Hc0) as (evs & Hs & Hall)
    end.
    exists evs. split; [|done]. by rewrite Hs, Hs0. }
  destruct e; first [apply Hp | by apply disconnect_only_sends].
Qed.

Lemma receive_loop_only_sends ws s u info frames w :
  consistent w → only_sends w (receive_loop ws s u info frames w).2.
Proof.
  revert w. induction frames as [|f frames IH]; intros w Hc.
  - exists []. split; [by rewrite app_nil_r | done].
  - cbn [receive_loop].
    assert (Hstep : talks w
      (match f with
       | Frame data => handle_message ws s u info data
       | Receive_raises e => raise e
       end w).2).
    { destruct f; [apply handle_message_talks | apply talks_refl]. }
    destruct (match f with
              | Frame data => handle_message ws s u info data
              | Receive_raises e => raise e
              end w) as [[[]|e] w1]; cbn [snd] in Hstep.
    + eapply only_sends_trans; [by apply talks_only_sends|].
      apply IH. by eapply consistent_talks.
    + eapply only_sends_trans; [by apply talks_only_sends|].
      pose proof (exit_only_sends s u e w1 (consistent_talks _ _ Hstep Hc)) as H.
      by destruct e.
Qed.

(** X11. The token decides what happens to the websocket. When
    [verify_token] raises, [websocket_endpoint] closes the websocket with
    code 4001 and the reason "Invalid token" and returns: the websocket is
    never accepted, nothing is attached or sent, and no frame is handled.
    When the token verifies, the websocket is accepted first and,
    whatever the frames and however the loop ends, all that follows are
    calls of [send_text]: the endpoint closes no websocket. *)
Theorem token_decides_acceptance ws s token frames w :
  consistent w →
  let w' := (websocket_endpoint ws s token frames w).2 in
  match verify_token (env w) token with
  | Raise _ =>
      websocket_endpoint ws s token frames w
        = (Ok Returned, log_event (Closed ws 4001 "Invalid token") w) ∧
      closings (drop (length (sockets w)) (sockets w')) = [(ws, 4001, "Invalid token")]
  | Ok _ =>
      ∃ evs, sockets w' = (sockets w ++ Accepted ws :: evs)%list ∧
             Forall is_sent evs ∧
             closings (drop (length (sockets w)) (sockets w')) = []
  end.
Proof.
  intros Hc w'. subst w'. unfold websocket_endpoint.
  destruct (verify_token (env w) token) as [payload|e].
  - rewrite run_bind.
    set (u := sub payload). set (info := [_; _; _]).
    destruct (connect_sockets ws s u info w Hc) as (evs1 & Hs1 & Hall1).
    pose proof (consistent_connect ws s u info w Hc) as Hc1.
    destruct (connect ws s u info w) as [[[]|e] w1] eqn:Hrun; cbn [snd] in *.
    + destruct (receive_loop_only_sends ws s u info frames w1 Hc1) as (evs2 & Hs2 & Hall2).
      exists (evs1 ++ evs2)%list.
      assert (Hs : sockets (receive_loop ws s u info frames w1).2
                   = (sockets w ++ Accepted ws :: evs1 ++ evs2)%list).
      { rewrite Hs2, Hs1. by rewrite <- app_assoc. }
      split; [exact Hs|]. split; [by apply Forall_app|].
      rewrite Hs, drop_app_length. apply (closings_sent (evs1 ++ evs2)). by apply Forall_app.
    + exists evs1. split; [exact Hs1|]. split; [exact Hall1|].
      rewrite Hs1, drop_app_length. by apply (closings_sent evs1).
  - assert (Hrun : (close ws 4001 "Invalid token";; mret Returned) w
                   = (Ok Returned, log_event (Closed ws 4001 "Invalid token") w))
      by reflexivity.
    rewrite Hrun. split; [reflexivity|].
    cbn [snd log_event sockets]. by rewrite drop_app_length.
Qed.

(** A world in which no token verifies. *)
Definition expired : exn := HTTPException 401 "Token tidak valid atau sudah kadaluarsa".

Definition strict_world : World :=
  mkWorld ∅ ∅ Redis.empty_redis (Some []) [] [] 0 0
          (mkEnv (fun n => "t" ++ pretty n) (fun n => "id" ++ pretty n)
                 (fun _ _ => None) (fun s => Ok s)
                 (fun s => Ok [("transcript", JStr s)])
                 (fun _ m _ _ _ _ => Ok (mkAIMessageResponse m JNull JNull JNull JNull))
                 (fun _ => None)
                 (fun _ => Raise expired)).

Lemma consistent_strict_world : consistent strict_world.
Proof. intros s [d Hd]. simpl in Hd. by rewrite lookup_empty in Hd. Qed.

Lemma token_decides_acceptance_witness :
  consistent strict_world ∧
  consistent Samples.empty_world ∧
  websocket_endpoint 1 "s" "stale" [Frame Samples.hello] strict_world
    = (Ok Returned, log_event (Closed 1 4001 "Invalid token") strict_world) ∧
  ∃ evs,
    sockets (websocket_endpoint 1 "s" "A" [Frame Samples.hello] Samples.empty_world).2
      = Accepted 1 :: evs ∧
    Forall is_sent evs.
Proof.
  pose proof consistent_strict_world as Hs. pose proof consistent_empty_world as He.
  split; [exact Hs|]. split; [exact He|]. split.
  - exact (proj1 (token_decides_acceptance 1 "s" "stale" [Frame Samples.hello]
                    strict_world Hs)).
  - destruct (token_decides_acceptance 1 "s" "A" [Frame Samples.hello]
                Samples.empty_world He) as (evs & H1 & H2 & _).
    exists evs. split; [exact H1 | exact H2].
Defined.

End ManagerInvariants.

(** ** Emotions *)

Module AgentSpec.
Import Py Agent.

(** The emotions [_detect_emotion] can return. *)
Definition detected : list string :=
  ["questioning"; "empathy"; "encouraging"; "excited"; "neutral"].

Lemma phase_emotions_values phase v :
  PyDict.get phase phase_emotions = Some v → v ∈ ["empathy"; "encouraging"; "neutral"].
Proof.
  unfold phase_emotions. simpl.
  repeat (destruct (String.eqb phase _); [intros [= <-]; set_solver|]). done.
Qed.

Lemma _detect_emotion_detected lower text phase :
  _detect_emotion lower text phase ∈ detected.
Proof.
  unfold _detect_emotion, detected.
  destruct (_ || _); [set_solver|].
  destruct (any_in empathy_keywords _); [set_solver|].
  destruct (any_in encourage_keywords _); [set_solver|].
  destruct (any_in excited_keywords _); [set_solver|].
  destruct (PyDict.get phase phase_emotions) as [v|] eqn:Hv; simpl; [|set_solver].
  apply phase_emotions_values in Hv. set_solver.
Qed.

(** X20. Whatever the text, the phase and the lower-casing,
    [_detect_emotion] returns one of questioning, empathy, encouraging,
    excited and neutral. Each of them is a key of [EMOTIONS_SSML], so the
    lookup of [_build_ssml] never falls back on the default and the
    emotion is among the supported ones; calm and serious are never
    detected. *)
Theorem detected_emotion_has_a_voice lower text phase :
  let emotion := _detect_emotion lower text phase in
  emotion ∈ detected ∧
  (∃ p, PyDict.get emotion EMOTIONS_SSML = Some p ∧ emotion_params emotion = Ok p) ∧
  (emotion ∈ PyDict.keys get_supported_emotions) ∧
  emotion ≠ "calm" ∧ emotion ≠ "serious".
Proof.
  intros emotion. pose proof (_detect_emotion_detected lower text phase) as H.
  fold emotion in H. split; [exact H|].
  unfold detected in H.
  repeat (apply elem_of_cons in H as [->|H]); try (by apply elem_of_nil in H);
    (split; [eexists; split; reflexivity|]); (split; [vm_compute; set_solver|]); done.
Qed.

Lemma prefix_trans a b t :
  String.prefix a b = true → String.prefix b t = true → String.prefix a t = true.
Proof.
  revert b t. induction a as [|c a IH]; intros b t; [by destruct t|].
  destruct b as [|c' b]; [done|]. destruct t as [|c'' t]; [done|]. simpl.
  destruct (Ascii.ascii_dec c c') as [->|]; [|done].
  destruct (Ascii.ascii_dec c' c'') as [->|]; [|done].
  apply IH.
Qed.

(** A text that contains a string contains its prefixes. *)
Lemma contains_prefix a b t :
  String.prefix a b = true → contains b t = true → contains a t = true.
Proof.
  intros Hab. induction t as [|c t IH]; cbn [contains];
    intros [H|H]%orb_true_iff; apply orb_true_iff.
  - left. by eapply prefix_trans.
  - done.
  - left. by eapply prefix_trans.
  - right. by apply IH.
Qed.

(** X21. The keyword "penting sekali" of the excited list never decides:
    a text whose lower-cased form contains it contains "penting", a
    keyword of the empathy list, which is checked first. Such a text is
    classified as questioning or as empathy. *)
Theorem penting_sekali_is_never_excited lower text phase :
  contains "penting sekali" (lower text) = true →
  _detect_emotion lower text phase ∈ ["questioning"; "empathy"].
Proof.
  intros H. unfold _detect_emotion.
  destruct (_ || _); [set_solver|].
  assert (He : any_in empathy_keywords (lower text) = true).
  { unfold any_in, empathy_keywords. apply existsb_exists. exists "penting".
    split; [set_solver|]. by eapply contains_prefix; [|exact H]. }
  rewrite He. set_solver.
Qed.

Lemma penting_sekali_witness :
  contains "penting sekali" "ini penting sekali" = true ∧
  _detect_emotion (fun s => s) "ini penting sekali" "setup" ∈ ["questioning"; "empathy"].
Proof.
  split; [reflexivity|].
  apply (penting_sekali_is_never_excited (fun s => s) "ini penting sekali" "setup").
  reflexivity.
Defined.

End AgentSpec.
